(** * SuperScribe: the recording / transcription session, verified

    A shallow embedding of [superscribe_win.py] (the tray application:
    [AudioRecorder], [TranscriptionService], [SuperScribeApp]) and of the
    transcriber of [main_test.py], together with the properties the
    specification states about them.

    Conventions of the embedding.
    - Python [str] values are Rocq [string]s; [bytes] are [list Byte.byte].
    - Objects are records; a method takes the object and returns the
      updated object.  The file system is a finite map from paths to
      file contents.
    - What a method does to the outside world (log lines, tray
      notifications, clipboard, key strokes, the request to the
      transcription service, threads it starts) is returned as the list
      of calls it made, in program order.
    - What the outside world answers (whether a library call raises,
      what the clock shows, what the service returns) is an input of the
      method. *)

From Stdlib Require Import String Ascii List ZArith Lia Bool.
From stdpp Require Import base option list gmap strings pretty.
Import ListNotations.

Local Open Scope string_scope.
Local Open Scope list_scope.

(** ** Python string operations used by the program *)

Module PyStr.

(** [str.lower()] on the ASCII letters; other characters are kept. *)
Definition lower_ascii (c : ascii) : ascii :=
  let n := nat_of_ascii c in
  if (65 <=? n)%nat && (n <=? 90)%nat then ascii_of_nat (n + 32) else c.

Fixpoint lower (s : string) : string :=
  match s with
  | EmptyString => EmptyString
  | String c s' => String (lower_ascii c) (lower s')
  end.

(** [s.startswith(p)] *)
Definition startswith (s p : string) : bool := String.prefix p s.

(** [s.endswith(suf)]: [s] is at least as long as [suf] and its last
    [len(suf)] characters are [suf]. *)
Definition endswith (s suf : string) : bool :=
  (String.length suf <=? String.length s)%nat
  && String.eqb
       (String.substring (String.length s - String.length suf)
                         (String.length suf) s)
       suf.

(** Truthiness of a string: [bool(s)] is false exactly for [""]. *)
Definition truthy (s : string) : bool :=
  match s with EmptyString => false | _ => true end.

End PyStr.

(** ** Values shared by the classes *)

Definition bytes := list Byte.byte.

(** [datetime.datetime]: the fields [strftime] reads. *)
Record datetime := {
  year : nat; month : nat; day : nat;
  hour : nat; minute : nat; second : nat
}.

(** Decimal rendering padded with zeros to [width] digits ([%m], [%d],
    [%H], [%M], [%S] use 2, [%Y] uses 4). *)
Fixpoint zeros (k : nat) : string :=
  match k with O => "" | S k' => "0" +:+ zeros k' end.

Definition zero_padded (width n : nat) : string :=
  let digits := pretty n in
  zeros (width - String.length digits) +:+ digits.

(** [strftime("%Y%m%d_%H%M%S")] *)
Definition strftime_compact (t : datetime) : string :=
  zero_padded 4 (year t) +:+ zero_padded 2 (month t) +:+ zero_padded 2 (day t)
  +:+ "_"
  +:+ zero_padded 2 (hour t) +:+ zero_padded 2 (minute t) +:+ zero_padded 2 (second t).

(** [os.path.join(a, b)] for a relative [b], with the Windows separator. *)
Definition os_path_join (a b : string) : string :=
  if PyStr.truthy a
  then if PyStr.endswith a "\" || PyStr.endswith a "/" then a +:+ b
       else a +:+ "\" +:+ b
  else b.

(** Files on disk.  A file written through the [wave] module is kept as
    its parameters and its PCM data section; any other file is its bytes. *)
Inductive FileContent :=
| WavFile (nchannels sampwidth : nat) (framerate : N) (pcm : bytes)
| RawFile (data : bytes).

(** Size of the RIFF/WAVE header the [wave] module writes before the data. *)
Definition wav_header_size : nat := 44.

(** [os.path.getsize] *)
Definition file_size (c : FileContent) : nat :=
  match c with
  | WavFile _ _ _ pcm => wav_header_size + length pcm
  | RawFile data => length data
  end.

(** [wave.open(f, 'rb').getnframes()]: data bytes per frame size. *)
Definition wave_getnframes (c : FileContent) : option nat :=
  match c with
  | WavFile nch sw _ pcm => Some (length pcm / (nch * sw))
  | RawFile _ => None
  end.

(** [wave.open(f, 'rb').readframes(n)] for all frames: the data section. *)
Definition wave_readframes (c : FileContent) : option bytes :=
  match c with
  | WavFile _ _ _ pcm => Some pcm
  | RawFile _ => None
  end.

(** ** Calls made to the outside world *)

Inductive LogLevel := INFO | WARNING | ERROR.

Inductive Call :=
| Log (level : LogLevel) (msg : string)
| OpenStream (device : nat) (channels : nat) (rate : N) (frames_per_buffer : nat)
| StartThread (target : string)
| JoinThread (target : string)
| CloseStream
| WaveWrite (filename : string)
| ReadFile (path : string)
| GenerateContent (model prompt mime_type : string) (data : FileContent)
| ClipboardCopy (text : string)
| SendHotkey (keys : list string)
| Notify (title message : string).

(** ** Answers of the outside world *)

(** What [model.generate_content] does: raise, or return a response that
    is falsy or has no [text], or one whose [text] is a string. *)
Inductive ServiceAnswer :=
| ServiceRaises (e : string)
| ServiceResponse (text : option string).

(** One read of the input stream by the capture loop. *)
Inductive ReadAnswer :=
| Chunk (data : bytes)
| ReadRaises (e : string).

(** [Some e] in a field of kind [option string] says that the library
    call raises an exception whose [str] is [e]; [None] that it returns. *)
Record Env := {
  audio_open : option string;
  stream_close : option string;
  wave_write : option string;
  now_stop : datetime;
  now_done : datetime;
  file_read : option string;
  generate_content : string -> FileContent -> ServiceAnswer;
  clipboard_copy : option string;
  send_hotkey : option string
}.

(** ** superscribe_win.py *)

Module SuperscribeWin.

(** *** class AudioRecorder *)

(** The handle [pyaudio.PyAudio()] with the input device chosen at
    construction; [self.audio] is [None] when construction failed. *)
Record PyAudio := { device_index : nat }.

Record AudioRecorder := {
  is_recording : bool;
  frames : list bytes;
  storage_dir : string;
  recording_thread : bool;   (* a thread object exists; [join] is listed
                                whenever there is one *)
  audio : option PyAudio;
  stream : bool              (* [hasattr(self, 'stream') and self.stream] *)
}.

(** Audio parameters set in [__init__]. *)
Definition channels : nat := 1.
Definition rate : N := 44100%N.
Definition chunk : nat := 1024.
(** [self.audio.get_sample_size(pyaudio.paInt16)] *)
Definition sample_size : nat := 2.

Definition set_is_recording (b : bool) (r : AudioRecorder) : AudioRecorder :=
  {| is_recording := b; frames := frames r; storage_dir := storage_dir r;
     recording_thread := recording_thread r; audio := audio r;
     stream := stream r |}.

Definition set_frames (fr : list bytes) (r : AudioRecorder) : AudioRecorder :=
  {| is_recording := is_recording r; frames := fr;
     storage_dir := storage_dir r; recording_thread := recording_thread r;
     audio := audio r; stream := stream r |}.

Definition set_started (r : AudioRecorder) : AudioRecorder :=
  {| is_recording := is_recording r; frames := frames r;
     storage_dir := storage_dir r; recording_thread := true;
     audio := audio r; stream := true |}.

(** [start_recording] (lines 98-127): the recorder after the call, the
    value returned and the calls made. *)
Definition start_recording (env : Env) (r : AudioRecorder)
  : AudioRecorder * bool * list Call :=
  match audio r with
  | None =>
      (r, false, [Log ERROR "Cannot start recording - PyAudio not initialized"])
  | Some pa =>
      let r1 := set_is_recording true (set_frames [] r) in
      let open := OpenStream (device_index pa) channels rate chunk in
      match audio_open env with
      | None =>
          (set_started r1, true,
           [open;
            Log INFO ("Recording started with device index "
                      +:+ pretty (device_index pa));
            StartThread "_record"])
      | Some e =>
          (set_is_recording false r1, false,
           [open; Log ERROR ("Failed to start recording: " +:+ e)])
      end
  end.

(** [_record] (lines 129-137), the body of the capture thread, run on
    the answers of the successive reads of the stream.  The loop runs
    while [is_recording] holds; an exception ends it and clears the
    flag.  When the answers run out the loop is where the next event
    finds it. *)
Fixpoint _record (reads : list ReadAnswer) (r : AudioRecorder)
  : AudioRecorder * list Call :=
  match reads with
  | [] => (r, [])
  | Chunk data :: rest =>
      if is_recording r
      then _record rest (set_frames (frames r ++ [data]) r)
      else (r, [])
  | ReadRaises e :: _ =>
      if is_recording r
      then (set_is_recording false r,
            [Log ERROR ("Error during recording: " +:+ e)])
      else (r, [])
  end.

(** [b''.join(self.frames)] *)
Definition join_frames (fr : list bytes) : bytes := concat fr.

(** [stop_recording] (lines 139-175): the recorder and the disk after
    the call, the value returned ([None] or the file name) and the
    calls made. *)
Definition stop_recording (env : Env) (r : AudioRecorder)
           (disk : gmap string FileContent)
  : AudioRecorder * gmap string FileContent * option string * list Call :=
  if negb (is_recording r) || negb (bool_decide (is_Some (audio r)))
  then (r, disk, None, [])
  else
    let r1 := set_is_recording false r in
    let join := if recording_thread r then [JoinThread "_record"] else [] in
    let close := if stream r then [CloseStream] else [] in
    let failed e := [Log ERROR ("Error stopping recording: " +:+ e)] in
    match (if stream r then stream_close env else None) with
    | Some e => (r1, disk, None, join ++ close ++ failed e)
    | None =>
        let stopped := join ++ close ++ [Log INFO "Recording stopped"] in
        match frames r with
        | [] =>
            (r1, disk, None,
             stopped ++ [Log WARNING "No audio data captured"])
        | _ :: _ =>
            let timestamp := strftime_compact (now_stop env) in
            let filename :=
              os_path_join (storage_dir r)
                           ("recording_" +:+ timestamp +:+ ".wav") in
            match wave_write env with
            | Some e =>
                (r1, disk, None, stopped ++ [WaveWrite filename] ++ failed e)
            | None =>
                (r1,
                 <[filename := WavFile channels sample_size rate
                                       (join_frames (frames r))]> disk,
                 Some filename,
                 stopped ++ [WaveWrite filename;
                             Log INFO ("Recording saved to " +:+ filename)])
            end
        end
    end.

(** A recorder in the middle of a session that has captured [chunks]:
    the flag is set, the audio handle exists, the buffer holds the
    chunks in capture order. *)
Definition recording_session (r : AudioRecorder) (chunks : list bytes)
  : Prop :=
  is_recording r = true /\ is_Some (audio r) /\ frames r = chunks.

Definition is_wave_write (c : Call) : bool :=
  match c with WaveWrite _ => true | _ => false end.

(** *** class TranscriptionService *)

Definition model : string := "gemini-2.0-flash".
Definition prompt : string := "Generate a transcript of the speech.".

(** Content-type inference (lines 204-213). *)
Definition mime_type_of (audio_file : string) : string :=
  let mime_type := "audio/wav" in
  if PyStr.endswith (PyStr.lower audio_file) ".mp3" then "audio/mpeg"
  else if PyStr.endswith (PyStr.lower audio_file) ".wav" then "audio/wav"
  else if PyStr.endswith (PyStr.lower audio_file) ".m4a" then "audio/mp4"
  else if PyStr.endswith (PyStr.lower audio_file) ".ogg" then "audio/ogg"
  else mime_type.

(** The file name ends with [ext] once put in lower case, as
    [audio_file.lower().endswith(ext)] tests it. *)
Definition has_extension (audio_file ext : string) : Prop :=
  exists stem, PyStr.lower audio_file = stem +:+ ext.

(** [transcribe_audio_file] (lines 186-249): the string returned and
    the calls made. *)
Definition transcribe_audio_file (env : Env)
           (disk : gmap string FileContent) (audio_file : string)
  : string * list Call :=
  match disk !! audio_file with
  | None =>
      let error_msg := "Error: Audio file not found: " +:+ audio_file in
      (error_msg, [Log ERROR error_msg])
  | Some content =>
      let size := file_size content in
      if (size =? 0)%nat then
        let error_msg := "Error: Audio file is empty" in
        (error_msg, [Log ERROR error_msg])
      else
        let started :=
          [Log INFO ("Transcribing audio file: " +:+ audio_file +:+ " ("
                     +:+ pretty size +:+ " bytes)")] in
        let mime_type := mime_type_of audio_file in
        let failed e :=
          ("Error during transcription: " +:+ e,
           [Log ERROR ("Transcription error: " +:+ e)]) in
        match file_read env with
        | Some e =>
            (fst (failed e), started ++ [ReadFile audio_file] ++ snd (failed e))
        | None =>
            let request :=
              started ++ [ReadFile audio_file;
                          Log INFO "Sending request to Gemini API";
                          GenerateContent model prompt mime_type content] in
            match generate_content env mime_type content with
            | ServiceRaises e => (fst (failed e), request ++ snd (failed e))
            | ServiceResponse None =>
                let error_msg :=
                  "Error: Received invalid response from Gemini API" in
                (error_msg, request ++ [Log ERROR error_msg])
            | ServiceResponse (Some transcription) =>
                (transcription,
                 request ++
                 [Log INFO ("Transcription successful: "
                            +:+ pretty (String.length transcription)
                            +:+ " characters")])
            end
        end
  end.

(** *** class SuperScribeApp *)

Record HistoryEntry := {
  timestamp : datetime;
  audio_file : string;
  transcription : string
}.

(** The fields the hotkey handlers read and write.  [self.transcriber]
    has no state of its own, [self.settings] is only used by the
    settings dialog, and [self.tray_icon] is seen through the [Notify]
    calls. *)
Record SuperScribeApp := {
  recorder : AudioRecorder;
  recording : bool;
  history : list HistoryEntry
}.

Definition set_recorder (r : AudioRecorder) (app : SuperScribeApp)
  : SuperScribeApp :=
  {| recorder := r; recording := recording app; history := history app |}.

Definition set_recording (b : bool) (app : SuperScribeApp) : SuperScribeApp :=
  {| recorder := recorder app; recording := b; history := history app |}.

Definition append_history (e : HistoryEntry) (app : SuperScribeApp)
  : SuperScribeApp :=
  {| recorder := recorder app; recording := recording app;
     history := history app ++ [e] |}.

(** [on_hotkey_pressed] (lines 272-277).  The value returned by
    [start_recording] is dropped. *)
Definition on_hotkey_pressed (env : Env) (app : SuperScribeApp)
  : SuperScribeApp * list Call :=
  if negb (recording app) then
    let app1 := set_recording true app in
    let '(r, _, calls) := start_recording env (recorder app1) in
    (set_recorder r app1,
     Log INFO "Hotkey pressed - starting recording" :: calls)
  else (app, []).

(** [paste_text_at_cursor] (lines 321-332).  A call that raises is
    still listed: it was made. *)
Definition paste_text_at_cursor (env : Env) (text : string) : list Call :=
  let failed e := [Log ERROR ("Error pasting text: " +:+ e)] in
  match clipboard_copy env with
  | Some e => [ClipboardCopy text] ++ failed e
  | None =>
      match send_hotkey env with
      | Some e => [ClipboardCopy text; SendHotkey ["ctrl"; "v"]] ++ failed e
      | None =>
          [ClipboardCopy text; SendHotkey ["ctrl"; "v"];
           Log INFO "Text pasted at cursor position"]
      end
  end.

Definition notify_completed : Call :=
  Notify "SuperScribe" "Transcription completed and pasted at cursor position".
Definition notify_transcription_failed : Call :=
  Notify "SuperScribe" "Transcription failed. Check log for details.".
Definition notify_recording_failed : Call :=
  Notify "SuperScribe" "Recording failed. Check microphone connection.".

(** First half of [on_hotkey_released], inside [if self.recording]
    (lines 282-286): clear the flag, stop the recorder. *)
Definition released_stop (env : Env) (app : SuperScribeApp)
           (disk : gmap string FileContent)
  : SuperScribeApp * gmap string FileContent * option string * list Call :=
  let app1 := set_recording false app in
  let '(r, disk1, file, calls) := stop_recording env (recorder app1) disk in
  (set_recorder r app1, disk1, file,
   Log INFO "Hotkey released - stopping recording" :: calls).

(** [if audio_file:] is taken by a non-empty file name only. *)
Definition file_produced (file : option string) : option string :=
  match file with
  | Some f => if PyStr.truthy f then Some f else None
  | None => None
  end.

(** The test of line 292. *)
Definition transcription_accepted (transcription : string) : bool :=
  PyStr.truthy transcription
  && negb (PyStr.startswith transcription "Error:").

(** Second half of [on_hotkey_released] (lines 288-319): transcribe the
    file in the handler itself, then deliver or report. *)
Definition released_process (env : Env) (app : SuperScribeApp)
           (disk : gmap string FileContent) (file : option string)
  : SuperScribeApp * list Call :=
  match file_produced file with
  | Some f =>
      let '(text, calls) := transcribe_audio_file env disk f in
      if transcription_accepted text then
        (append_history {| timestamp := now_done env; audio_file := f;
                           transcription := text |} app,
         calls ++ paste_text_at_cursor env text ++ [notify_completed])
      else
        (app,
         calls ++ [Log ERROR ("Transcription failed: " +:+ text);
                   notify_transcription_failed])
  | None =>
      (app, [Log ERROR "No audio file created"; notify_recording_failed])
  end.

(** [on_hotkey_released] (lines 279-319). *)
Definition on_hotkey_released (env : Env) (app : SuperScribeApp)
           (disk : gmap string FileContent)
  : SuperScribeApp * gmap string FileContent * list Call :=
  if recording app then
    let '(app1, disk1, file, calls1) := released_stop env app disk in
    let '(app2, calls2) := released_process env app1 disk1 file in
    (app2, disk1, calls1 ++ calls2)
  else (app, disk, []).

(** *** Sessions *)



(** [start_recording] returns [False]. *)
Definition start_fails (env : Env) (r : AudioRecorder) : Prop :=
  snd (fst (start_recording env r)) = false.

(** A hotkey-down that changes nothing and calls nothing. *)
Definition hotkey_down_ignored (app : SuperScribeApp) : Prop :=
  forall env, on_hotkey_pressed env app = (app, []).

Definition is_start_thread (c : Call) : bool :=
  match c with StartThread _ => true | _ => false end.

Definition is_notify (c : Call) : bool :=
  match c with Notify _ _ => true | _ => false end.

Definition is_read_file (c : Call) : bool :=
  match c with ReadFile _ => true | _ => false end.

Definition is_clipboard_copy (c : Call) : bool :=
  match c with ClipboardCopy _ => true | _ => false end.

(** The calls the user can see: notifications, clipboard, key
    strokes. *)
Definition user_visible (c : Call) : bool :=
  match c with
  | Notify _ _ | ClipboardCopy _ | SendHotkey _ => true
  | _ => false
  end.

Definition visible (calls : list Call) : list Call :=
  List.filter user_visible calls.

(** The tray notifications among the calls, in order. *)
Definition notifications (calls : list Call) : list Call :=
  List.filter is_notify calls.

(** The threads started among the calls. *)
Definition threads_started (calls : list Call) : list Call :=
  List.filter is_start_thread calls.

Definition is_generate_content (c : Call) : bool :=
  match c with GenerateContent _ _ _ _ => true | _ => false end.

(** What one hotkey-down / hotkey-up pair does. *)
Record Cycle := {
  final : SuperScribeApp;
  final_disk : gmap string FileContent;
  produced : option string;    (* what [stop_recording] returned *)
  calls_made : list Call
}.

(** A cycle: the press, the capture thread (when the press started
    one) running on the answers [reads] of the stream, the release. *)
Definition cycle (env : Env) (reads : list ReadAnswer)
           (app : SuperScribeApp) (disk : gmap string FileContent) : Cycle :=
  let '(app1, calls1) := on_hotkey_pressed env app in
  let '(r2, calls2) :=
    if existsb is_start_thread calls1
    then _record reads (recorder app1)
    else (recorder app1, []) in
  let app2 := set_recorder r2 app1 in
  let '(_, _, file, _) := stop_recording env (recorder app2) disk in
  let '(app3, disk3, calls3) := on_hotkey_released env app2 disk in
  {| final := app3; final_disk := disk3;
     produced := if recording app2 then file_produced file else None;
     calls_made := calls1 ++ calls2 ++ calls3 |}.

End SuperscribeWin.

(** ** Sample values *)

Module Sample.
Import SuperscribeWin.

Definition clock : datetime :=
  {| year := 2024; month := 3; day := 7; hour := 9; minute := 5; second := 0 |}.

(** Every library call returns; the service answers [answer]. *)
Definition env_answering (answer : ServiceAnswer) : Env :=
  {| audio_open := None; stream_close := None; wave_write := None;
     now_stop := clock; now_done := clock; file_read := None;
     generate_content := fun _ _ => answer;
     clipboard_copy := None; send_hotkey := None |}.

Definition env_hello : Env :=
  env_answering (ServiceResponse (Some "hello world")).

(** As [env_hello], but the input stream cannot be opened. *)
Definition env_no_microphone : Env :=
  {| audio_open := Some "Invalid input device"; stream_close := None;
     wave_write := None; now_stop := clock; now_done := clock;
     file_read := None;
     generate_content := fun _ _ => ServiceResponse (Some "hello world");
     clipboard_copy := None; send_hotkey := None |}.

(** The recorder and the application as their constructors leave them. *)
Definition new_recorder : AudioRecorder :=
  {| is_recording := false; frames := []; storage_dir := "recordings";
     recording_thread := false; audio := Some {| device_index := 1 |};
     stream := false |}.

Definition new_app : SuperScribeApp :=
  {| recorder := new_recorder; recording := false; history := [] |}.

Definition two_chunks : list bytes :=
  [[Byte.x01; Byte.x02]; [Byte.x03; Byte.x04]].

(** A recorder that has captured [two_chunks]. *)
Definition busy_recorder : AudioRecorder :=
  {| is_recording := true; frames := two_chunks; storage_dir := "recordings";
     recording_thread := true; audio := Some {| device_index := 1 |};
     stream := true |}.

Definition busy_app : SuperScribeApp :=
  {| recorder := busy_recorder; recording := true; history := [] |}.

Definition wav_name : string := "recordings\recording_20240307_090500.wav".

(** The disk once the recording of [busy_recorder] has been saved. *)
Definition disk_with_recording : gmap string FileContent :=
  <[wav_name := WavFile 1 2 44100%N (concat two_chunks)]> ∅.

(** The service answers with a transcript that begins with "Error:". *)
Definition env_error_transcript : Env :=
  env_answering (ServiceResponse (Some "Error: disk not found, he said")).

(** The request to the service raises. *)
Definition env_timeout : Env :=
  env_answering (ServiceRaises "deadline exceeded").

(** The recorder after a start, two chunks and a read that raises: the
    capture loop has stopped, the buffer holds the two chunks. *)
Definition aborted_recorder : AudioRecorder :=
  fst (_record (map Chunk two_chunks ++ [ReadRaises "Unanticipated host error"])
               (fst (fst (start_recording env_hello new_recorder)))).

(** As [env_hello], but closing the stream raises. *)
Definition env_close_fails : Env :=
  {| audio_open := None; stream_close := Some "Stream closed";
     wave_write := None; now_stop := clock; now_done := clock;
     file_read := None;
     generate_content := fun _ _ => ServiceResponse (Some "hello world");
     clipboard_copy := None; send_hotkey := None |}.

End Sample.

(** ** main_test.py *)

Module MainTest.

(** Content-type inference of [AudioFileTranscriber.transcribe_audio_file]
    (lines 51-60). *)
Definition mime_type_of (audio_file : string) : string :=
  let mime_type := "audio/wav" in
  if PyStr.endswith (PyStr.lower audio_file) ".mp3" then "audio/mpeg"
  else if PyStr.endswith (PyStr.lower audio_file) ".wav" then "audio/wav"
  else if PyStr.endswith (PyStr.lower audio_file) ".m4a" then "audio/mp4"
  else if PyStr.endswith (PyStr.lower audio_file) ".ogg" then "audio/ogg"
  else mime_type.

End MainTest.

(** ** superscribe_win.py: construction of the recorder *)

Module Construction.
Import SuperscribeWin.

(** What [get_device_info_by_index] tells about a device. *)
Record DeviceInfo := { name : string; maxInputChannels : Z }.

(** A call of the device enumeration that raises: the host API query,
    or the query of device [k] in the first or in the second loop of
    [get_input_device_index]. *)
Inductive EnumerationFailure :=
| HostApiRaises (e : string)
| FirstLoopRaises (k : nat) (e : string)
| SecondLoopRaises (k : nat) (e : string).

(** The machine at start-up: whether creating the storage directory
    raises, whether [pyaudio.PyAudio()] raises, which enumeration call
    raises if any, and the devices of host API 0 in index order
    ([deviceCount] is their number). *)
Record AudioSystem := {
  makedirs : option string;
  pyaudio_new : option string;
  enumeration : option EnumerationFailure;
  devices : list DeviceInfo
}.

Definition log_device (i : nat) (d : DeviceInfo) : Call :=
  Log INFO ("Device " +:+ pretty i +:+ ": " +:+ name d
            +:+ ", Input channels: " +:+ pretty (maxInputChannels d)).

(** The first loop of [get_input_device_index] (lines 85-87). *)
Fixpoint log_devices (i : nat) (devs : list DeviceInfo) : list Call :=
  match devs with
  | [] => []
  | d :: rest => log_device i d :: log_devices (S i) rest
  end.

(** The second loop (lines 90-94), from index [i] on. *)
Fixpoint first_input (i : nat) (devs : list DeviceInfo)
  : option (nat * DeviceInfo) :=
  match devs with
  | [] => None
  | d :: rest =>
      if (0 <? maxInputChannels d)%Z then Some (i, d)
      else first_input (S i) rest
  end.

(** [get_input_device_index] (lines 79-96). *)
Definition get_input_device_index (devs : list DeviceInfo)
  : option nat * list Call :=
  match first_input 0 devs with
  | Some (i, d) =>
      (Some i,
       log_devices 0 devs ++ [Log INFO ("Selected input device: " +:+ name d)])
  | None => (None, log_devices 0 devs)
  end.

(** The exception the enumeration raises, if it reaches the call that
    raises, with the device lines logged before it.  A query of the
    first loop is reached when the device exists; one of the second loop
    when the device exists and no device before it has input channels
    (the loop returns at the first that has). *)
Definition enumeration_error (sys : AudioSystem)
  : option (string * list Call) :=
  match enumeration sys with
  | None => None
  | Some (HostApiRaises e) => Some (e, [])
  | Some (FirstLoopRaises k e) =>
      if (k <? length (devices sys))%nat
      then Some (e, log_devices 0 (take k (devices sys)))
      else None
  | Some (SecondLoopRaises k e) =>
      if (k <? length (devices sys))%nat
      then match first_input 0 (take k (devices sys)) with
           | None => Some (e, log_devices 0 (devices sys))
           | Some _ => None
           end
      else None
  end.

(** The calls of the constructor: the library calls and the creation of
    the storage directory. *)
Inductive SetupCall :=
| MakeDirs (path : string)
| LibCall (c : Call).

(** What the constructor raises: the exception of [ensure_storage_dir],
    which is outside the [try], or the [ValueError] of line 73. *)
Inductive InitError :=
| StorageError (e : string)
| ValueError (msg : string).

Definition no_device_message : string :=
  "No suitable input device found. Please check your microphone connection.".

(** [AudioRecorder.__init__] (lines 51-73): the recorder, or what the
    constructor raises. *)
Definition init (sys : AudioSystem) (dir : string)
  : (AudioRecorder + InitError) * list SetupCall :=
  let failed (e : string) (before : list Call)
    : (AudioRecorder + InitError) * list SetupCall :=
    (inr (ValueError ("Audio initialization failed: " +:+ e)),
     MakeDirs dir
     :: map LibCall
            (before ++ [Log ERROR ("Failed to initialize PyAudio: " +:+ e)])) in
  match makedirs sys with
  | Some e => (inr (StorageError e), [MakeDirs dir])
  | None =>
      match pyaudio_new sys with
      | Some e => failed e []
      | None =>
          match enumeration_error sys with
          | Some (e, logged) => failed e logged
          | None =>
              let '(index, calls) := get_input_device_index (devices sys) in
              match index with
              | Some i =>
                  (inl {| is_recording := false; frames := [];
                          storage_dir := dir; recording_thread := false;
                          audio := Some {| device_index := i |};
                          stream := false |},
                   MakeDirs dir :: map LibCall calls)
              | None =>
                  failed no_device_message
                         (calls ++ [Log ERROR "No suitable input device found"])
              end
          end
      end
  end.

End Construction.

(** ** superscribe_win.py: sequences of events *)

Module Events.
Import SuperscribeWin.

(** What happens to the application: the two hotkey callbacks
    registered by [setup_keyboard_hooks], each with the answers of the
    outside world during the call, and the capture thread reading from
    the stream. *)
Inductive Event :=
| HotkeyDown (env : Env)
| Captured (reads : list ReadAnswer)
| HotkeyUp (env : Env).

Definition step (ev : Event) (app : SuperScribeApp)
           (disk : gmap string FileContent)
  : SuperScribeApp * gmap string FileContent * list Call :=
  match ev with
  | HotkeyDown env =>
      (fst (on_hotkey_pressed env app), disk, snd (on_hotkey_pressed env app))
  | Captured reads =>
      (set_recorder (fst (_record reads (recorder app))) app, disk,
       snd (_record reads (recorder app)))
  | HotkeyUp env => on_hotkey_released env app disk
  end.

Fixpoint run (evs : list Event) (app : SuperScribeApp)
         (disk : gmap string FileContent)
  : SuperScribeApp * gmap string FileContent * list Call :=
  match evs with
  | [] => (app, disk, [])
  | ev :: rest =>
      let '(app1, disk1, calls1) := step ev app disk in
      let '(app2, disk2, calls2) := run rest app1 disk1 in
      (app2, disk2, calls1 ++ calls2)
  end.

Definition is_hotkey_up (ev : Event) : bool :=
  match ev with HotkeyUp _ => true | _ => false end.

(** Every entry of the history names a file that is on disk. *)
Definition history_on_disk (app : SuperScribeApp)
           (disk : gmap string FileContent) : Prop :=
  Forall (fun e => is_Some (disk !! audio_file e)) (history app).

(** The recorder records only while the controller's flag is set. *)
Definition flags_agree (app : SuperScribeApp) : Prop :=
  is_recording (recorder app) = true -> recording app = true.

End Events.

(** ** superscribe_win.py: the history window *)

Module HistoryWindow.
Import SuperscribeWin.

Definition newline : string := String (ascii_of_nat 10) "".

(** [strftime("%Y-%m-%d %H:%M:%S")] *)
Definition strftime_readable (t : datetime) : string :=
  zero_padded 4 (year t) +:+ "-" +:+ zero_padded 2 (month t) +:+ "-"
  +:+ zero_padded 2 (day t) +:+ " "
  +:+ zero_padded 2 (hour t) +:+ ":" +:+ zero_padded 2 (minute t) +:+ ":"
  +:+ zero_padded 2 (second t).

(** The two insertions made for one entry (lines 378-380). *)
Definition entry_text (e : HistoryEntry) : list string :=
  ["--- " +:+ strftime_readable (timestamp e) +:+ " ---" +:+ newline;
   transcription e +:+ newline +:+ newline].

(** The texts [show_history] inserts at the end of the text widget, in
    order (lines 375-382). *)
Definition show_history (app : SuperScribeApp) : list string :=
  match history app with
  | [] => ["No transcription history yet."]
  | _ :: _ => concat (map entry_text (rev (history app)))
  end.

End HistoryWindow.

(** ** main_test.py: the transcriber and the window *)

Module MainTestApp.

(** What the program writes and calls: [print] lines and library calls. *)
Inductive Output :=
| Print (line : string)
| Lib (c : Call).

Definition lib_calls (out : list Output) : list Call :=
  omap (fun o => match o with Lib c => Some c | Print _ => None end) out.

Definition printed (out : list Output) : list string :=
  omap (fun o => match o with Print l => Some l | Lib _ => None end) out.

Definition model : string := "gemini-2.0-flash".
Definition prompt : string := "Generate a transcript of the speech.".

(** [AudioFileTranscriber.transcribe_audio_file] (lines 32-103). *)
Definition transcribe_audio_file (env : Env)
           (disk : gmap string FileContent) (audio_file : string)
  : string * list Output :=
  match disk !! audio_file with
  | None =>
      let error_msg := "Error: Audio file not found: " +:+ audio_file in
      (error_msg, [Lib (Log ERROR error_msg)])
  | Some content =>
      let size := file_size content in
      if (size =? 0)%nat then
        let error_msg := "Error: Audio file is empty" in
        (error_msg, [Lib (Log ERROR error_msg)])
      else
        let announce :=
          "Transcribing audio file: " +:+ audio_file +:+ " ("
          +:+ pretty size +:+ " bytes)" in
        let started := [Print announce; Lib (Log INFO announce)] in
        let mime_type := MainTest.mime_type_of audio_file in
        let failed e :=
          ("Error during transcription: " +:+ e,
           [Lib (Log ERROR ("Transcription error: " +:+ e));
            Print ("Error during transcription: " +:+ e)]) in
        let reading :=
          started ++ [Print "Reading audio file..."; Lib (ReadFile audio_file)] in
        match file_read env with
        | Some e => (fst (failed e), reading ++ snd (failed e))
        | None =>
            let request :=
              reading ++ [Print "Sending request to Gemini API...";
                          Lib (Log INFO "Sending request to Gemini API");
                          Lib (GenerateContent model prompt mime_type content)] in
            match generate_content env mime_type content with
            | ServiceRaises e => (fst (failed e), request ++ snd (failed e))
            | ServiceResponse None =>
                let error_msg :=
                  "Error: Received invalid response from Gemini API" in
                (error_msg, request ++ [Lib (Log ERROR error_msg)])
            | ServiceResponse (Some transcription) =>
                (transcription,
                 request ++
                 [Print (HistoryWindow.newline +:+ "--- Transcription Result ---");
                  Print transcription;
                  Print ("---------------------------" +:+ HistoryWindow.newline);
                  Lib (Log INFO ("Transcription successful: "
                                 +:+ pretty (String.length transcription)
                                 +:+ " characters"))])
            end
        end
  end.

(** The widgets of [SimpleUI] that [transcribe_file] reads and writes. *)
Record SimpleUI := {
  file_var : string;
  result_text : string;
  status_var : string
}.

(** What the window does besides: the error dialog, and the calls of the
    transcriber. *)
Inductive UiCall :=
| ShowError (title message : string)
| Ran (o : Output).

(** [SimpleUI.transcribe_file] (lines 164-188).  [elapsed] is the text
    [f"{elapsed_time:.2f}"] of the time the call took. *)
Definition transcribe_file (env : Env) (disk : gmap string FileContent)
           (elapsed : string) (ui : SimpleUI) : SimpleUI * list UiCall :=
  if negb (PyStr.truthy (file_var ui))
     || String.eqb (file_var ui) "No file selected"
  then (ui, [ShowError "Error" "Please select an audio file first"])
  else
    let '(transcription, out) := transcribe_audio_file env disk (file_var ui) in
    ({| file_var := file_var ui;
        result_text := transcription;
        status_var := "Transcription completed in " +:+ elapsed +:+ " seconds" |},
     map Ran out).

End MainTestApp.

(** * Properties *)

Import SuperscribeWin.

(** ** Strings *)

Section StringFacts.

Lemma append_cons (c : ascii) (a b : string) :
  String c a +:+ b = String c (a +:+ b).
Proof. reflexivity. Qed.

Lemma append_nil (b : string) : "" +:+ b = b.
Proof. reflexivity. Qed.

Lemma length_app_string (a b : string) :
  String.length (a +:+ b) = String.length a + String.length b.
Proof. induction a as [|c a IH]; simpl; [reflexivity | now rewrite IH]. Qed.

Lemma substring_whole (s : string) :
  String.substring 0 (String.length s) s = s.
Proof. induction s as [|c s IH]; simpl; [reflexivity | now rewrite IH]. Qed.

Lemma substring_skip (pre suf : string) :
  String.substring (String.length pre) (String.length suf) (pre +:+ suf) = suf.
Proof.
  induction pre as [|c pre IH]; simpl; [apply substring_whole | exact IH].
Qed.

Lemma substring_split (s : string) :
  forall n m, n + m = String.length s ->
    s = String.substring 0 n s +:+ String.substring n m s.
Proof.
  induction s as [|c s IH]; intros n m H; simpl in *.
  - destruct n; destruct m; simpl; try reflexivity; lia.
  - destruct n as [|n]; simpl.
    + destruct m as [|m]; [lia|]. injection H as ->.
      simpl. now rewrite append_nil, substring_whole.
    + simpl. rewrite append_cons. f_equal. apply IH. lia.
Qed.

(** [endswith] is the suffix relation. *)
Lemma endswith_spec (s suf : string) :
  PyStr.endswith s suf = true <-> exists pre, s = pre +:+ suf.
Proof.
  unfold PyStr.endswith. rewrite andb_true_iff, Nat.leb_le, String.eqb_eq.
  split.
  - intros [Hle Hsub].
    exists (String.substring 0 (String.length s - String.length suf) s).
    rewrite <- Hsub at 2. apply substring_split. lia.
  - intros [pre ->]. rewrite length_app_string. split; [lia|].
    replace (String.length pre + String.length suf - String.length suf)
      with (String.length pre) by lia.
    apply substring_skip.
Qed.

(** [startswith] is the prefix relation. *)
Lemma startswith_spec (s p : string) :
  PyStr.startswith s p = true <-> exists rest, s = p +:+ rest.
Proof.
  unfold PyStr.startswith. revert s.
  induction p as [|c p IH]; intros s.
  - split; [intros _; now exists s | destruct s; reflexivity].
  - destruct s as [|d s]; simpl.
    + split; [discriminate | intros [rest H]; discriminate].
    + destruct (Ascii.ascii_dec c d) as [->|Hne].
      * rewrite IH. split; intros [rest H]; exists rest.
        -- now rewrite H.
        -- rewrite append_cons in H. now injection H.
      * split; [discriminate |].
        intros [rest H]. rewrite append_cons in H. injection H. congruence.
Qed.

Lemma lower_app (a b : string) :
  PyStr.lower (a +:+ b) = PyStr.lower a +:+ PyStr.lower b.
Proof. induction a as [|c a IH]; simpl; [reflexivity | now rewrite IH]. Qed.

(** Two suffixes of one string that have the same length are equal. *)
Lemma endswith_same_length (s e1 e2 : string) :
  String.length e1 = String.length e2 ->
  PyStr.endswith s e1 = true -> PyStr.endswith s e2 = true -> e1 = e2.
Proof.
  unfold PyStr.endswith. intros Hlen.
  rewrite !andb_true_iff, !String.eqb_eq, Hlen.
  intros [_ H1] [_ H2]. congruence.
Qed.

End StringFacts.

(** ** Content-type inference *)

Section ContentType.

Lemma has_extension_endswith (path ext : string) :
  has_extension path ext <-> PyStr.endswith (PyStr.lower path) ext = true.
Proof. unfold has_extension. now rewrite endswith_spec. Qed.

(** A name that ends with the extension as written also has it. *)
Lemma exact_extension (stem ext : string) :
  PyStr.lower ext = ext -> has_extension (stem +:+ ext) ext.
Proof.
  intros H. exists (PyStr.lower stem). now rewrite lower_app, H.
Qed.

(** No name has two of the four extensions. *)
Lemma extension_unique (s e1 e2 : string) :
  String.length e1 = 4 -> String.length e2 = 4 -> e1 <> e2 ->
  PyStr.endswith s e1 = true -> PyStr.endswith s e2 = false.
Proof.
  intros H1 H2 Hne He1.
  destruct (PyStr.endswith s e2) eqn:He2; [|reflexivity].
  exfalso. apply Hne.
  apply (endswith_same_length s); [congruence | assumption | assumption].
Qed.

Lemma main_test_same_mime (path : string) :
  MainTest.mime_type_of path = SuperscribeWin.mime_type_of path.
Proof. reflexivity. Qed.

End ContentType.

Example mime_a_mp3 : mime_type_of "a.mp3" = "audio/mpeg".
Proof. reflexivity. Qed.

Example mime_a_m4a : mime_type_of "a.m4a" = "audio/mp4".
Proof. reflexivity. Qed.

Example mime_a_ogg : mime_type_of "a.ogg" = "audio/ogg".
Proof. reflexivity. Qed.

Example mime_a_wav : mime_type_of "a.wav" = "audio/wav".
Proof. reflexivity. Qed.

Example mime_a_flac : mime_type_of "a.flac" = "audio/wav".
Proof. reflexivity. Qed.

Example mime_upper_case : mime_type_of "TALK.MP3" = "audio/mpeg".
Proof. reflexivity. Qed.

Example mime_of_recording : mime_type_of Sample.wav_name = "audio/wav".
Proof. reflexivity. Qed.

(** C8.  For every file name, the content type inferred is audio/mpeg
    when the name ends with .mp3, audio/mp4 when it ends with .m4a,
    audio/ogg when it ends with .ogg, and audio/wav when it ends with
    .wav or with none of these.  The name is compared in lower case, so
    the extension is recognised whatever its case.  Both transcribers
    (superscribe_win.py and main_test.py) infer the same type. *)
Theorem C8_mime_type_by_extension (path : string) :
  (has_extension path ".mp3" -> mime_type_of path = "audio/mpeg")
  /\ (has_extension path ".m4a" -> mime_type_of path = "audio/mp4")
  /\ (has_extension path ".ogg" -> mime_type_of path = "audio/ogg")
  /\ (has_extension path ".wav" -> mime_type_of path = "audio/wav")
  /\ (~ has_extension path ".mp3" -> ~ has_extension path ".m4a" ->
      ~ has_extension path ".ogg" -> mime_type_of path = "audio/wav")
  /\ MainTest.mime_type_of path = mime_type_of path.
Proof.
  rewrite !has_extension_endswith. unfold mime_type_of.
  set (s := PyStr.lower path).
  repeat split.
  - intros ->. reflexivity.
  - intros H.
    rewrite (extension_unique s ".m4a" ".mp3"), (extension_unique s ".m4a" ".wav"), H;
      (reflexivity || assumption || discriminate).
  - intros H.
    rewrite (extension_unique s ".ogg" ".mp3"), (extension_unique s ".ogg" ".wav"),
      (extension_unique s ".ogg" ".m4a"), H;
      (reflexivity || assumption || discriminate).
  - intros H.
    rewrite (extension_unique s ".wav" ".mp3"), H;
      (reflexivity || assumption || discriminate).
  - intros H1 H2 H3.
    destruct (PyStr.endswith s ".mp3"); [now elim H1|].
    destruct (PyStr.endswith s ".wav"); [reflexivity|].
    destruct (PyStr.endswith s ".m4a"); [now elim H2|].
    destruct (PyStr.endswith s ".ogg"); [now elim H3|].
    reflexivity.
Qed.

(** ** The recorder *)

Section Recorder.

Lemma length_join_frames (chunks : list bytes) (C : nat) :
  Forall (fun c => length c = C) chunks ->
  length (join_frames chunks) = length chunks * C.
Proof.
  unfold join_frames.
  induction 1 as [|c chunks Hc _ IH]; simpl; [reflexivity|].
  rewrite length_app, IH, Hc. reflexivity.
Qed.

(** The capture loop appends what it reads, in order, while the flag
    is set. *)
Lemma record_chunks (chunks : list bytes) :
  forall r, is_recording r = true ->
    _record (map Chunk chunks) r = (set_frames (frames r ++ chunks) r, []).
Proof.
  induction chunks as [|c chunks IH]; intros r Hrec; simpl.
  - rewrite app_nil_r. now destruct r.
  - rewrite Hrec, IH by exact Hrec. simpl. now rewrite <- app_assoc.
Qed.

(** A start that succeeds followed by the capture of [chunks] is a
    recording session with these chunks. *)
Lemma started_session env r r1 calls (chunks : list bytes) :
  start_recording env r = (r1, true, calls) ->
  recording_session (fst (_record (map Chunk chunks) r1)) chunks.
Proof.
  unfold start_recording. intros H.
  destruct (audio r) as [pa|] eqn:Ha; [|discriminate].
  destruct (audio_open env); [discriminate|].
  injection H as <- _. rewrite record_chunks by reflexivity.
  simpl. unfold recording_session. simpl. rewrite Ha. eauto.
Qed.

(** What [stop_recording] has done when it returns a file name. *)
Lemma stop_recording_file env r disk r' disk' f calls :
  stop_recording env r disk = (r', disk', Some f, calls) ->
  is_recording r = true
  /\ frames r <> []
  /\ r' = set_is_recording false r
  /\ f = os_path_join (storage_dir r)
                      ("recording_" +:+ strftime_compact (now_stop env)
                       +:+ ".wav")
  /\ disk' = <[f := WavFile channels sample_size rate
                            (join_frames (frames r))]> disk.
Proof.
  unfold stop_recording.
  destruct (is_recording r); simpl; [|discriminate].
  destruct (bool_decide (is_Some (audio r))); simpl; [|discriminate].
  destruct (if stream r then stream_close env else None); [discriminate|].
  destruct (frames r) as [|c fr] eqn:Hfr; [discriminate|].
  destruct (wave_write env); [discriminate|].
  intros H. injection H as <- <- <- _. repeat split; congruence.
Qed.

(** Without a file name returned, the disk is as it was. *)
Lemma stop_recording_no_file env r disk r' disk' calls :
  stop_recording env r disk = (r', disk', None, calls) -> disk' = disk.
Proof.
  unfold stop_recording.
  destruct (negb (is_recording r) || negb (bool_decide (is_Some (audio r))));
    [intros H; now injection H|].
  destruct (if stream r then stream_close env else None);
    [intros H; now injection H|].
  destruct (frames r); [intros H; now injection H|].
  destruct (wave_write env); [intros H; now injection H | discriminate].
Qed.

(** A file produced by [stop_recording] is on disk and is not empty. *)
Lemma stop_recording_file_on_disk env r disk r' disk' f calls :
  stop_recording env r disk = (r', disk', Some f, calls) ->
  exists content, disk' !! f = Some content /\ file_size content <> 0.
Proof.
  intros H. apply stop_recording_file in H as (_ & _ & _ & _ & ->).
  eexists. rewrite lookup_insert_eq. split; [reflexivity|].
  unfold file_size, wav_header_size. lia.
Qed.

(** After [stop_recording] the recorder's flag is down, unless the
    call gave up at once for want of an audio handle. *)
Lemma stop_recording_flag env r disk r' disk' file calls :
  stop_recording env r disk = (r', disk', file, calls) ->
  is_Some (audio r) -> is_recording r' = false.
Proof.
  unfold stop_recording. intros H Ha.
  rewrite (bool_decide_eq_true_2 _ Ha) in H. simpl in H.
  rewrite orb_false_r in H.
  destruct (is_recording r) eqn:Hr; simpl in H.
  - destruct (if stream r then stream_close env else None);
      [injection H as <- _ _ _; reflexivity|].
    destruct (frames r); [injection H as <- _ _ _; reflexivity|].
    destruct (wave_write env); injection H as <- _ _ _; reflexivity.
  - injection H as <- _ _ _. exact Hr.
Qed.

End Recorder.

(** C7.  For every recorder whose buffer holds no chunk, [stop_recording]
    returns [None] as an ordinary result, leaves the disk as it was and
    never calls the [wave] module, whatever the flag, the audio handle
    and the answers of the library calls are. *)
Theorem C7_stop_without_chunks env (r : AudioRecorder)
        (disk : gmap string FileContent) :
  frames r = [] ->
  exists r' calls,
    stop_recording env r disk = (r', disk, None, calls)
    /\ existsb is_wave_write calls = false.
Proof.
  intros Hfr. unfold stop_recording. rewrite Hfr.
  destruct (negb (is_recording r) || negb (bool_decide (is_Some (audio r)))).
  { eauto. }
  destruct (if stream r then stream_close env else None);
    do 2 eexists; (split; [reflexivity|]);
    now destruct (recording_thread r), (stream r).
Qed.

Lemma C7_witness :
  exists r' calls,
    stop_recording Sample.env_hello
                   (set_is_recording true Sample.new_recorder) ∅
    = (r', ∅, None, calls)
    /\ existsb is_wave_write calls = false.
Proof.
  apply (C7_stop_without_chunks Sample.env_hello
           (set_is_recording true Sample.new_recorder) ∅).
  reflexivity.
Defined.

(** C6, as the program has it.  For every recording session that is
    still recording (the flag is set: the capture loop has not stopped on
    a read error) and has captured N chunks of C bytes each, N >= 1, and
    in which closing the stream and writing the file raise nothing, [stop_recording] returns a file name and writes
    that one file: a WAVE file (mono, 16 bit, 44100 Hz) whose data
    section is the concatenation of the chunks in capture order, N * C
    bytes long; read back, it has those bytes and N * C / 2 frames. *)
Theorem C6_stop_writes_all_chunks env (r : AudioRecorder)
        (disk : gmap string FileContent) (chunks : list bytes) (C : nat) :
  recording_session r chunks ->
  chunks <> [] ->
  Forall (fun c => length c = C) chunks ->
  stream_close env = None ->
  wave_write env = None ->
  exists filename file r' calls,
    stop_recording env r disk = (r', <[filename := file]> disk, Some filename, calls)
    /\ file = WavFile 1 2 44100%N (concat chunks)
    /\ wave_readframes file = Some (concat chunks)
    /\ length (concat chunks) = length chunks * C
    /\ wave_getnframes file = Some (length chunks * C / 2).
Proof.
  intros (Hrec & Ha & Hfr) Hne Hlen Hclose Hwrite.
  unfold stop_recording.
  rewrite Hrec, (bool_decide_eq_true_2 _ Ha), Hclose, Hwrite, Hfr. simpl.
  replace (if stream r then None else None) with (@None string)
    by now destruct (stream r).
  destruct chunks as [|c chunks]; [now elim Hne|].
  do 4 eexists. split; [reflexivity|].
  pose proof (length_join_frames _ _ Hlen) as Hjoin.
  unfold join_frames in *. repeat split.
  - exact Hjoin.
  - unfold wave_getnframes. now rewrite Hjoin.
Qed.

Lemma C6_witness :
  exists filename file r' calls,
    stop_recording Sample.env_hello Sample.busy_recorder ∅
    = (r', <[filename := file]> ∅, Some filename, calls)
    /\ file = WavFile 1 2 44100%N (concat Sample.two_chunks)
    /\ wave_readframes file = Some (concat Sample.two_chunks)
    /\ length (concat Sample.two_chunks) = length Sample.two_chunks * 2
    /\ wave_getnframes file = Some (length Sample.two_chunks * 2 / 2).
Proof.
  apply (C6_stop_writes_all_chunks Sample.env_hello Sample.busy_recorder ∅
           Sample.two_chunks 2).
  - unfold recording_session. simpl. eauto.
  - discriminate.
  - repeat constructor.
  - reflexivity.
  - reflexivity.
Defined.

(** C6 as stated fails.  After a read error the buffer holds two chunks
    of two bytes, yet [stop_recording] returns [None] and writes nothing;
    and with the session still recording, it does the same when closing
    the stream raises. *)
Lemma C6_counterexample :
  frames Sample.aborted_recorder = Sample.two_chunks
  /\ Forall (fun c => length c = 2) Sample.two_chunks
  /\ stop_recording Sample.env_hello Sample.aborted_recorder ∅
     = (Sample.aborted_recorder, ∅, None, [])
  /\ stop_recording Sample.env_close_fails Sample.busy_recorder ∅
     = (set_is_recording false Sample.busy_recorder, ∅, None,
        [JoinThread "_record"; CloseStream;
         Log ERROR "Error stopping recording: Stream closed"])
  /\ ~ (forall env (r : AudioRecorder) (disk : gmap string FileContent)
               (chunks : list bytes) (C : nat),
          frames r = chunks -> chunks <> [] ->
          Forall (fun c => length c = C) chunks ->
          exists filename file r' calls,
            stop_recording env r disk
            = (r', <[filename := file]> disk, Some filename, calls)).
Proof.
  split; [reflexivity|]. split; [repeat constructor|].
  split; [reflexivity|]. split; [reflexivity|].
  intros H.
  destruct (H Sample.env_hello Sample.aborted_recorder ∅ Sample.two_chunks 2
              eq_refl ltac:(discriminate) ltac:(repeat constructor))
    as (filename & file & r' & calls & Hstop).
  discriminate Hstop.
Qed.

(** ** The transcriber *)

Section Transcriber.

Variable env : Env.
Variable disk : gmap string FileContent.

Lemma transcribe_missing (path : string) :
  disk !! path = None ->
  transcribe_audio_file env disk path
  = ("Error: Audio file not found: " +:+ path,
     [Log ERROR ("Error: Audio file not found: " +:+ path)]).
Proof. unfold transcribe_audio_file. now intros ->. Qed.

Lemma transcribe_empty (path : string) (content : FileContent) :
  disk !! path = Some content -> file_size content = 0 ->
  transcribe_audio_file env disk path
  = ("Error: Audio file is empty", [Log ERROR "Error: Audio file is empty"]).
Proof. unfold transcribe_audio_file. now intros -> ->. Qed.

(** The service is asked once, with the content of the file and the
    type inferred from its name, when the file is there, is not empty
    and can be read. *)
Lemma transcribe_asks (path : string) (content : FileContent) :
  disk !! path = Some content -> file_size content <> 0 ->
  file_read env = None ->
  exists before after,
    snd (transcribe_audio_file env disk path)
    = before ++ [GenerateContent model prompt (mime_type_of path) content]
             ++ after
    /\ existsb is_generate_content before = false
    /\ existsb is_generate_content after = false.
Proof.
  intros Hf Hsize Hread. unfold transcribe_audio_file.
  rewrite Hf, Hread. apply Nat.eqb_neq in Hsize. rewrite Hsize.
  eexists [_; _; _].
  destruct (generate_content env (mime_type_of path) content) as [e|[t|]];
    simpl; eexists; (split; [reflexivity|]); split; reflexivity.
Qed.

(** What is returned when the service answers. *)
Lemma transcribe_answer (path : string) (content : FileContent) :
  disk !! path = Some content -> file_size content <> 0 ->
  file_read env = None ->
  fst (transcribe_audio_file env disk path)
  = match generate_content env (mime_type_of path) content with
    | ServiceRaises e => "Error during transcription: " +:+ e
    | ServiceResponse None => "Error: Received invalid response from Gemini API"
    | ServiceResponse (Some transcription) => transcription
    end.
Proof.
  intros Hf Hsize Hread. unfold transcribe_audio_file.
  rewrite Hf, Hread. apply Nat.eqb_neq in Hsize. rewrite Hsize.
  now destruct (generate_content env (mime_type_of path) content) as [e|[t|]].
Qed.

(** The transcriber notifies nobody, starts no thread and touches
    neither the clipboard nor the disk: it only logs, reads the file
    and asks the service. *)
Lemma transcribe_quiet (path : string) :
  notifications (snd (transcribe_audio_file env disk path)) = []
  /\ threads_started (snd (transcribe_audio_file env disk path)) = []
  /\ existsb is_clipboard_copy (snd (transcribe_audio_file env disk path))
     = false.
Proof.
  unfold transcribe_audio_file.
  destruct (disk !! path) as [content|]; [|now repeat split].
  destruct (Nat.eqb (file_size content) 0); [now repeat split|].
  destruct (file_read env); [now repeat split|].
  now destruct (generate_content env (mime_type_of path) content) as [e|[t|]].
Qed.

End Transcriber.

(** C5.  For every path, [transcribe_audio_file] checks the file before
    anything else.  A path that is not on disk gives the failure
    "Error: Audio file not found: <path>", a file of zero bytes gives the
    failure "Error: Audio file is empty"; in both cases the call returns
    this value (it raises nothing), the controller's test rejects it, and
    the only call made is the log line: the file is not read and the
    service is not asked. *)
Theorem C5_transcribe_validates_first env (disk : gmap string FileContent)
        (path : string) :
  (disk !! path = None ->
   transcribe_audio_file env disk path
   = ("Error: Audio file not found: " +:+ path,
      [Log ERROR ("Error: Audio file not found: " +:+ path)]))
  /\ (forall content, disk !! path = Some content -> file_size content = 0 ->
      transcribe_audio_file env disk path
      = ("Error: Audio file is empty",
         [Log ERROR "Error: Audio file is empty"]))
  /\ (disk !! path = None
      \/ (exists content, disk !! path = Some content /\ file_size content = 0) ->
      transcription_accepted (fst (transcribe_audio_file env disk path)) = false
      /\ existsb is_generate_content
                 (snd (transcribe_audio_file env disk path)) = false
      /\ existsb is_read_file
                 (snd (transcribe_audio_file env disk path)) = false).
Proof.
  split; [apply transcribe_missing|].
  split; [apply transcribe_empty|].
  intros [Hnone|(content & Hsome & Hsize)].
  - rewrite (transcribe_missing env disk path Hnone). now repeat split.
  - rewrite (transcribe_empty env disk path content Hsome Hsize).
    now repeat split.
Qed.

Example transcribe_no_such_file :
  transcribe_audio_file Sample.env_hello ∅ "nothing.wav"
  = ("Error: Audio file not found: nothing.wav",
     [Log ERROR "Error: Audio file not found: nothing.wav"]).
Proof. reflexivity. Qed.

Example transcribe_zero_bytes :
  transcribe_audio_file Sample.env_hello {["empty.mp3" := RawFile []]} "empty.mp3"
  = ("Error: Audio file is empty", [Log ERROR "Error: Audio file is empty"]).
Proof. reflexivity. Qed.

(** ** The controller: hotkey-down *)

Section HotkeyDown.

Lemma start_recording_quiet env r :
  notifications (snd (start_recording env r)) = [].
Proof.
  unfold start_recording. destruct (audio r); [|reflexivity].
  now destruct (audio_open env).
Qed.

(** After a start that failed, [stop_recording] gives up at its first
    test. *)
Lemma stop_after_failed_start env env' r disk :
  start_fails env r ->
  stop_recording env' (fst (fst (start_recording env r))) disk
  = (fst (fst (start_recording env r)), disk, None, []).
Proof.
  unfold start_fails, start_recording, stop_recording.
  destruct (audio r) as [pa|] eqn:Ha; simpl.
  - destruct (audio_open env); [reflexivity | discriminate].
  - intros _. rewrite Ha.
    rewrite (bool_decide_eq_false_2 (is_Some None)) by (apply is_Some_None).
    now rewrite orb_true_r.
Qed.

Lemma failed_start_threads env r :
  start_fails env r -> threads_started (snd (start_recording env r)) = [].
Proof.
  unfold start_fails, start_recording. destruct (audio r); [|reflexivity].
  destruct (audio_open env); [reflexivity | discriminate].
Qed.

Lemma pressed_while_recording env app :
  recording app = true -> on_hotkey_pressed env app = (app, []).
Proof. unfold on_hotkey_pressed. now intros ->. Qed.

Lemma pressed_when_idle env app :
  recording app = false ->
  on_hotkey_pressed env app
  = (set_recorder (fst (fst (start_recording env (recorder app))))
                  (set_recording true app),
     Log INFO "Hotkey pressed - starting recording"
     :: snd (start_recording env (recorder app))).
Proof.
  unfold on_hotkey_pressed. intros ->. simpl.
  now destruct (start_recording env (recorder app)) as [[r b] calls].
Qed.


End HotkeyDown.



(** C2, as the program has it.  A hotkey-down in the idle state whose
    [start_recording] fails still sets the recording flag, and notifies
    nothing; no thread is started and the history is unchanged.  The
    failure shows at the next hotkey-up: [stop_recording] returns no
    file, the flag is cleared, the disk is unchanged and the one
    notification "Recording failed. Check microphone connection." is
    sent. *)
Theorem C2_failed_start_reported_on_release env (app : SuperScribeApp) :
  recording app = false ->
  start_fails env (recorder app) ->
  let app1 := fst (on_hotkey_pressed env app) in
  let calls1 := snd (on_hotkey_pressed env app) in
  recording app1 = true
  /\ history app1 = history app
  /\ notifications calls1 = []
  /\ threads_started calls1 = []
  /\ forall env' disk,
       on_hotkey_released env' app1 disk
       = (set_recording false app1, disk,
          [Log INFO "Hotkey released - stopping recording";
           Log ERROR "No audio file created";
           notify_recording_failed]).
Proof.
  intros Hidle Hfail. simpl. rewrite (pressed_when_idle env app Hidle). simpl.
  repeat split.
  - apply start_recording_quiet.
  - now apply failed_start_threads.
  - intros env' disk. unfold on_hotkey_released, released_stop. simpl.
    now rewrite (stop_after_failed_start env env' (recorder app) disk Hfail).
Qed.

Lemma C2_witness :
  let app1 := fst (on_hotkey_pressed Sample.env_no_microphone Sample.new_app) in
  let calls1 := snd (on_hotkey_pressed Sample.env_no_microphone Sample.new_app) in
  recording app1 = true
  /\ history app1 = history Sample.new_app
  /\ notifications calls1 = []
  /\ threads_started calls1 = []
  /\ forall env' disk,
       on_hotkey_released env' app1 disk
       = (set_recording false app1, disk,
          [Log INFO "Hotkey released - stopping recording";
           Log ERROR "No audio file created";
           notify_recording_failed]).
Proof.
  apply (C2_failed_start_reported_on_release Sample.env_no_microphone
           Sample.new_app); reflexivity.
Defined.

(** C2 as stated fails: the microphone cannot be opened, the
    application is idle, and after the hotkey-down the recording flag is
    set and no notification has been sent. *)
Lemma C2_counterexample :
  recording Sample.new_app = false
  /\ start_fails Sample.env_no_microphone (recorder Sample.new_app)
  /\ recording (fst (on_hotkey_pressed Sample.env_no_microphone
                                       Sample.new_app)) = true
  /\ notifications (snd (on_hotkey_pressed Sample.env_no_microphone
                                           Sample.new_app)) = []
  /\ ~ (forall env app,
          recording app = false -> start_fails env (recorder app) ->
          recording (fst (on_hotkey_pressed env app)) = false
          /\ notifications (snd (on_hotkey_pressed env app)) <> []).
Proof.
  do 4 (split; [reflexivity|]).
  intros H.
  destruct (H Sample.env_no_microphone Sample.new_app eq_refl eq_refl)
    as [Hflag _].
  discriminate Hflag.
Qed.

(** ** The controller: hotkey-up *)

Section HotkeyUp.

Lemma visible_app (a b : list Call) : visible (a ++ b) = visible a ++ visible b.
Proof. apply List.filter_app. Qed.

Lemma visible_log level msg (calls : list Call) :
  visible (Log level msg :: calls) = visible calls.
Proof. reflexivity. Qed.

Lemma notifications_app (a b : list Call) :
  notifications (a ++ b) = notifications a ++ notifications b.
Proof. apply List.filter_app. Qed.

Lemma threads_started_app (a b : list Call) :
  threads_started (a ++ b) = threads_started a ++ threads_started b.
Proof. apply List.filter_app. Qed.

(** Calls none of which the user sees hold no notification and no
    clipboard copy. *)
Lemma invisible_notifications (calls : list Call) :
  visible calls = [] -> notifications calls = [].
Proof.
  induction calls as [|c calls IH]; [reflexivity|].
  destruct c; simpl; try discriminate; exact IH.
Qed.

Lemma notifications_of_visible (calls : list Call) :
  notifications (visible calls) = notifications calls.
Proof.
  induction calls as [|c calls IH]; [reflexivity|].
  destruct c; simpl; try exact IH; now rewrite IH.
Qed.

Lemma clipboard_of_visible (calls : list Call) :
  existsb is_clipboard_copy (visible calls)
  = existsb is_clipboard_copy calls.
Proof.
  induction calls as [|c calls IH]; [reflexivity|].
  destruct c; simpl; exact IH || reflexivity.
Qed.

Lemma start_recording_invisible env r :
  visible (snd (start_recording env r)) = [].
Proof.
  unfold start_recording. destruct (audio r); [|reflexivity].
  now destruct (audio_open env).
Qed.

Lemma record_invisible (reads : list ReadAnswer) :
  forall r, visible (snd (_record reads r)) = [].
Proof.
  induction reads as [|[data|e] reads IH]; intros r; simpl;
    [reflexivity | | ]; destruct (is_recording r); auto.
Qed.

Lemma stop_recording_invisible env r disk :
  visible (snd (stop_recording env r disk)) = []
  /\ threads_started (snd (stop_recording env r disk)) = [].
Proof.
  unfold stop_recording.
  destruct (negb (is_recording r) || negb (bool_decide (is_Some (audio r))));
    [now split|].
  destruct (recording_thread r), (stream r);
    destruct (stream_close env), (frames r), (wave_write env); now split.
Qed.

Lemma transcribe_invisible env disk path :
  visible (snd (transcribe_audio_file env disk path)) = [].
Proof.
  unfold transcribe_audio_file.
  destruct (disk !! path) as [content|]; [|reflexivity].
  destruct (Nat.eqb (file_size content) 0); [reflexivity|].
  destruct (file_read env); [reflexivity|].
  now destruct (generate_content env (mime_type_of path) content) as [e|[t|]].
Qed.

Lemma paste_threads env text :
  threads_started (paste_text_at_cursor env text) = []
  /\ notifications (paste_text_at_cursor env text) = [].
Proof.
  unfold paste_text_at_cursor.
  now destruct (clipboard_copy env), (send_hotkey env).
Qed.

(** What the user sees of a delivery when no library call raises. *)
Lemma paste_visible env text :
  clipboard_copy env = None -> send_hotkey env = None ->
  visible (paste_text_at_cursor env text)
  = [ClipboardCopy text; SendHotkey ["ctrl"; "v"]].
Proof. unfold paste_text_at_cursor. now intros -> ->. Qed.

(** The clipboard copy is called in every case. *)
Lemma paste_copies env text :
  In (ClipboardCopy text) (paste_text_at_cursor env text).
Proof.
  unfold paste_text_at_cursor.
  destruct (clipboard_copy env), (send_hotkey env); simpl; auto.
Qed.

(** The test of line 292, as a proposition. *)
Lemma accepted_spec (text : string) :
  transcription_accepted text = true
  <-> text <> "" /\ ~ exists rest, text = "Error:" +:+ rest.
Proof.
  unfold transcription_accepted.
  rewrite andb_true_iff, negb_true_iff, <- not_true_iff_false,
    startswith_spec.
  split; intros [H1 H2]; (split; [|exact H2]).
  - now destruct text.
  - destruct text; [now elim H1 | reflexivity].
Qed.

(** The message of the exception handler passes the test: it begins
    with "Error " and not with "Error:". *)
Lemma exception_message_accepted (e : string) :
  transcription_accepted ("Error during transcription: " +:+ e) = true.
Proof. reflexivity. Qed.

Lemma file_name_truthy (dir stamp : string) :
  PyStr.truthy (os_path_join dir ("recording_" +:+ stamp +:+ ".wav")) = true.
Proof.
  unfold os_path_join. destruct dir as [|c dir]; [reflexivity|].
  simpl. now destruct (PyStr.endswith _ _ || PyStr.endswith _ _).
Qed.

Lemma stop_recording_file_truthy env r disk r' disk' f calls :
  stop_recording env r disk = (r', disk', Some f, calls) ->
  PyStr.truthy f = true.
Proof.
  intros H. apply stop_recording_file in H as (_ & _ & _ & -> & _).
  apply file_name_truthy.
Qed.

(** The hotkey-up handler when [stop_recording] returns a file: the
    second half runs on the disk the first half left. *)
Lemma released_with_file env app disk r disk1 f calls1 :
  recording app = true ->
  stop_recording env (recorder app) disk = (r, disk1, Some f, calls1) ->
  on_hotkey_released env app disk
  = (fst (released_process env (set_recorder r (set_recording false app))
                           disk1 (Some f)),
     disk1,
     (Log INFO "Hotkey released - stopping recording" :: calls1)
     ++ snd (released_process env (set_recorder r (set_recording false app))
                              disk1 (Some f))).
Proof.
  intros Hrec Hstop. unfold on_hotkey_released, released_stop.
  rewrite Hrec. simpl. rewrite Hstop.
  now destruct (released_process _ _ _ _).
Qed.

Lemma process_accepted env app disk f :
  PyStr.truthy f = true ->
  transcription_accepted (fst (transcribe_audio_file env disk f)) = true ->
  released_process env app disk (Some f)
  = (append_history
       {| timestamp := now_done env; audio_file := f;
          transcription := fst (transcribe_audio_file env disk f) |} app,
     snd (transcribe_audio_file env disk f)
     ++ paste_text_at_cursor env (fst (transcribe_audio_file env disk f))
     ++ [notify_completed]).
Proof.
  unfold released_process, file_produced. intros -> Hacc.
  destruct (transcribe_audio_file env disk f) as [text calls].
  simpl in *. now rewrite Hacc.
Qed.

Lemma process_rejected env app disk f :
  PyStr.truthy f = true ->
  transcription_accepted (fst (transcribe_audio_file env disk f)) = false ->
  released_process env app disk (Some f)
  = (app,
     snd (transcribe_audio_file env disk f)
     ++ [Log ERROR ("Transcription failed: "
                    +:+ fst (transcribe_audio_file env disk f));
         notify_transcription_failed]).
Proof.
  unfold released_process, file_produced. intros -> Hacc.
  destruct (transcribe_audio_file env disk f) as [text calls].
  simpl in *. now rewrite Hacc.
Qed.

End HotkeyUp.

(** ** Whole cycles *)

Section Cycles.

Variable env : Env.
Variable reads : list ReadAnswer.
Variable app : SuperScribeApp.
Variable disk : gmap string FileContent.

(** A cycle begun in the idle state is the hotkey-up handler run on an
    application whose flag is set and whose history is the old one,
    after calls the user does not see. *)
Lemma cycle_from_idle :
  recording app = false ->
  exists app2 before,
    recording app2 = true
    /\ history app2 = history app
    /\ visible before = []
    /\ produced (cycle env reads app disk)
       = file_produced (snd (fst (stop_recording env (recorder app2) disk)))
    /\ final (cycle env reads app disk)
       = fst (fst (on_hotkey_released env app2 disk))
    /\ final_disk (cycle env reads app disk)
       = snd (fst (on_hotkey_released env app2 disk))
    /\ calls_made (cycle env reads app disk)
       = before ++ snd (on_hotkey_released env app2 disk).
Proof.
  intros Hidle. unfold cycle. rewrite (pressed_when_idle env app Hidle).
  set (started := start_recording env (recorder app)).
  set (app1 := set_recorder (fst (fst started)) (set_recording true app)).
  set (calls1 := Log INFO "Hotkey pressed - starting recording" :: snd started).
  assert (Hcaptured :
            visible (snd (if existsb is_start_thread calls1
                          then _record reads (recorder app1)
                          else (recorder app1, []))) = []).
  { destruct (existsb is_start_thread calls1);
      [apply record_invisible | reflexivity]. }
  destruct (if existsb is_start_thread calls1
            then _record reads (recorder app1)
            else (recorder app1, [])) as [r2 calls2].
  simpl in Hcaptured.
  assert (Hbefore : visible (calls1 ++ calls2) = []).
  { rewrite visible_app, Hcaptured.
    change (visible (snd (start_recording env (recorder app))) ++ [] = []).
    now rewrite start_recording_invisible. }
  exists (set_recorder r2 app1), (calls1 ++ calls2).
  destruct (stop_recording env (recorder (set_recorder r2 app1)) disk)
    as [[[r3 disk3] file] calls3] eqn:Hstop.
  destruct (on_hotkey_released env (set_recorder r2 app1) disk)
    as [[app3 disk4] calls4] eqn:Hrel.
  split; [reflexivity|]. split; [reflexivity|]. split; [exact Hbefore|].
  split; [reflexivity|]. split; [reflexivity|]. split; [reflexivity|].
  simpl. now rewrite <- app_assoc.
Qed.

(** How a cycle that produced a file ends.  The flags are down, the
    file is on disk, and the outcome is decided by the test of line
    292 on what [transcribe_audio_file] returned. *)
Lemma cycle_outcome (f : string) :
  recording app = false ->
  produced (cycle env reads app disk) = Some f ->
  let c := cycle env reads app disk in
  let text := fst (transcribe_audio_file env (final_disk c) f) in
  recording (final c) = false
  /\ is_recording (recorder (final c)) = false
  /\ (exists content,
        final_disk c !! f = Some content /\ file_size content <> 0)
  /\ (transcription_accepted text = true ->
      history (final c)
      = history app ++ [{| timestamp := now_done env; audio_file := f;
                           transcription := text |}]
      /\ visible (calls_made c)
         = visible (paste_text_at_cursor env text) ++ [notify_completed])
  /\ (transcription_accepted text = false ->
      history (final c) = history app
      /\ visible (calls_made c) = [notify_transcription_failed]).
Proof.
  intros Hidle Hfile.
  destruct (cycle_from_idle Hidle)
    as (app2 & before & Hrec & Hhist & Hvis & Hprod & Hfin & Hdisk & Hcalls).
  simpl. rewrite Hfin, Hdisk, Hcalls. rewrite Hprod in Hfile. clear Hprod.
  destruct (stop_recording env (recorder app2) disk)
    as [[[r disk1] file] calls1] eqn:Hstop.
  simpl in Hfile. unfold file_produced in Hfile.
  destruct file as [f'|]; [|discriminate].
  destruct (PyStr.truthy f') eqn:Htruthy; [|discriminate].
  injection Hfile as ->.
  rewrite (released_with_file env app2 disk r disk1 f calls1 Hrec Hstop).
  simpl.
  pose proof (stop_recording_invisible env (recorder app2) disk) as [Hsv _].
  rewrite Hstop in Hsv. simpl in Hsv.
  pose proof (transcribe_invisible env disk1 f) as Htv.
  pose proof (stop_recording_file _ _ _ _ _ _ _ Hstop) as (_ & _ & Hr & _ & _).
  assert (Hflags :
            forall a calls,
              released_process env (set_recorder r (set_recording false app2))
                               disk1 (Some f) = (a, calls) ->
              recording a = false /\ is_recording (recorder a) = false).
  { intros a calls. unfold released_process, file_produced.
    rewrite Htruthy.
    destruct (transcribe_audio_file env disk1 f) as [t c].
    destruct (transcription_accepted t); intros H; injection H as <- _;
      simpl; now rewrite Hr. }
  destruct (released_process env (set_recorder r (set_recording false app2))
                             disk1 (Some f)) as [a calls] eqn:Hproc.
  destruct (Hflags a calls eq_refl) as [Hf1 Hf2]. simpl.
  split; [exact Hf1|]. split; [exact Hf2|].
  split; [exact (stop_recording_file_on_disk _ _ _ _ _ _ _ Hstop)|].
  split; intros Hacc.
  - rewrite (process_accepted env _ disk1 f Htruthy Hacc) in Hproc.
    injection Hproc as <- <-. simpl. rewrite Hhist. split; [reflexivity|].
    rewrite visible_app, visible_log, !visible_app, Hvis, Hsv, Htv.
    reflexivity.
  - rewrite (process_rejected env _ disk1 f Htruthy Hacc) in Hproc.
    injection Hproc as <- <-. simpl. rewrite Hhist. split; [reflexivity|].
    rewrite visible_app, visible_log, !visible_app, Hvis, Hsv, Htv.
    reflexivity.
Qed.

End Cycles.

(** C3.  For every cycle begun in the idle state whose hotkey-up
    produces a file [f], in which the service answers "hello world" and
    the clipboard and key-stroke calls return: exactly one entry is
    appended to the history, with transcription "hello world" (and file
    [f]); what the user sees is the clipboard copy of the text, the
    ctrl+v key stroke and then the one notification, the success one; and
    the controller is idle again (both flags down). *)
Theorem C3_hello_world_cycle env (reads : list ReadAnswer)
        (app : SuperScribeApp) (disk : gmap string FileContent) (f : string) :
  recording app = false ->
  produced (cycle env reads app disk) = Some f ->
  file_read env = None ->
  (forall mime content,
      generate_content env mime content = ServiceResponse (Some "hello world")) ->
  clipboard_copy env = None ->
  send_hotkey env = None ->
  let c := cycle env reads app disk in
  history (final c)
  = history app ++ [{| timestamp := now_done env; audio_file := f;
                       transcription := "hello world" |}]
  /\ visible (calls_made c)
     = [ClipboardCopy "hello world"; SendHotkey ["ctrl"; "v"]; notify_completed]
  /\ notifications (calls_made c) = [notify_completed]
  /\ recording (final c) = false
  /\ is_recording (recorder (final c)) = false.
Proof.
  intros Hidle Hfile Hread Hservice Hcopy Hkeys.
  destruct (cycle_outcome env reads app disk f Hidle Hfile)
    as (Hflag & Hrflag & (content & Hdisk & Hsize) & Hacc & _).
  simpl.
  pose proof (transcribe_answer env _ f content Hdisk Hsize Hread) as Htext.
  rewrite Hservice in Htext. rewrite Htext in Hacc.
  destruct (Hacc eq_refl) as [Hhist Hvis].
  rewrite (paste_visible env _ Hcopy Hkeys) in Hvis.
  split; [exact Hhist|]. split; [exact Hvis|].
  split; [|now split].
  rewrite <- notifications_of_visible, Hvis. reflexivity.
Qed.

Lemma C3_witness :
  let c := cycle Sample.env_hello (map Chunk Sample.two_chunks)
                 Sample.new_app ∅ in
  history (final c)
  = history Sample.new_app
    ++ [{| timestamp := now_done Sample.env_hello;
           audio_file := Sample.wav_name;
           transcription := "hello world" |}]
  /\ visible (calls_made c)
     = [ClipboardCopy "hello world"; SendHotkey ["ctrl"; "v"]; notify_completed]
  /\ notifications (calls_made c) = [notify_completed]
  /\ recording (final c) = false
  /\ is_recording (recorder (final c)) = false.
Proof.
  apply (C3_hello_world_cycle Sample.env_hello (map Chunk Sample.two_chunks)
           Sample.new_app ∅ Sample.wav_name);
    reflexivity.
Defined.

(** C4 fails on the program for a transport failure.  In every cycle
    that produces a file and in which the request to the service raises
    an exception [e], [transcribe_audio_file] returns "Error during
    transcription: e"; this does not begin with "Error:", so the
    controller takes it for a transcript: it copies it to the clipboard,
    appends it to the history and sends the success notification. *)
Theorem C4_transport_failure_taken_for_transcript env
        (reads : list ReadAnswer) (app : SuperScribeApp)
        (disk : gmap string FileContent) (f e : string) :
  recording app = false ->
  produced (cycle env reads app disk) = Some f ->
  file_read env = None ->
  (forall mime content, generate_content env mime content = ServiceRaises e) ->
  let c := cycle env reads app disk in
  history (final c)
  = history app ++ [{| timestamp := now_done env; audio_file := f;
                       transcription := "Error during transcription: " +:+ e |}]
  /\ notifications (calls_made c) = [notify_completed]
  /\ In (ClipboardCopy ("Error during transcription: " +:+ e)) (calls_made c)
  /\ recording (final c) = false.
Proof.
  intros Hidle Hfile Hread Hservice.
  destruct (cycle_outcome env reads app disk f Hidle Hfile)
    as (Hflag & _ & (content & Hdisk & Hsize) & Hacc & _).
  simpl.
  pose proof (transcribe_answer env _ f content Hdisk Hsize Hread) as Htext.
  rewrite Hservice in Htext. rewrite Htext in Hacc.
  destruct (Hacc (exception_message_accepted e)) as [Hhist Hvis].
  split; [exact Hhist|].
  split.
  - rewrite <- notifications_of_visible, Hvis, notifications_app.
    rewrite notifications_of_visible.
    now rewrite (proj2 (paste_threads env _)).
  - split; [|exact Hflag].
    assert (Hin : In (ClipboardCopy ("Error during transcription: " +:+ e))
                     (visible (calls_made (cycle env reads app disk)))).
    { rewrite Hvis. apply in_or_app. left.
      apply filter_In. split; [apply paste_copies | reflexivity]. }
    apply filter_In in Hin. exact (proj1 Hin).
Qed.

Lemma C4_witness :
  let c := cycle Sample.env_timeout (map Chunk Sample.two_chunks)
                 Sample.new_app ∅ in
  history (final c)
  = history Sample.new_app
    ++ [{| timestamp := now_done Sample.env_timeout;
           audio_file := Sample.wav_name;
           transcription := "Error during transcription: "
                            +:+ "deadline exceeded" |}]
  /\ notifications (calls_made c) = [notify_completed]
  /\ In (ClipboardCopy ("Error during transcription: " +:+ "deadline exceeded"))
        (calls_made c)
  /\ recording (final c) = false.
Proof.
  apply (C4_transport_failure_taken_for_transcript Sample.env_timeout
           (map Chunk Sample.two_chunks) Sample.new_app ∅ Sample.wav_name
           "deadline exceeded");
    reflexivity.
Defined.

(** The part of C4 the program does have.  In every cycle that produces
    a file and in which what [transcribe_audio_file] returns is rejected
    by the test of line 292 (the empty string, or a string that begins
    with "Error:", as the messages for a missing file, an empty file and
    an invalid response do), the controller ends idle, the history is
    unchanged, the only thing the user sees is the one failure
    notification, and the file is still on disk. *)
Lemma rejected_cycle env (reads : list ReadAnswer) (app : SuperScribeApp)
      (disk : gmap string FileContent) (f : string) :
  recording app = false ->
  produced (cycle env reads app disk) = Some f ->
  let c := cycle env reads app disk in
  transcription_accepted (fst (transcribe_audio_file env (final_disk c) f))
  = false ->
  recording (final c) = false
  /\ history (final c) = history app
  /\ visible (calls_made c) = [notify_transcription_failed]
  /\ is_Some (final_disk c !! f).
Proof.
  intros Hidle Hfile.
  destruct (cycle_outcome env reads app disk f Hidle Hfile)
    as (Hflag & _ & (content & Hdisk & _) & _ & Hrej).
  simpl. intros Hno. destruct (Hrej Hno) as [Hhist Hvis].
  rewrite Hdisk. eauto.
Qed.

(** ** Where the transcription runs, and how its result is read *)

Section InHandler.

Lemma app_one_more {A} (l : list A) (x : A) : l ++ [x] <> l.
Proof.
  intros H. apply (f_equal (@length A)) in H.
  rewrite length_app in H. simpl in H. lia.
Qed.

Lemma transcribe_threads env disk path :
  threads_started (snd (transcribe_audio_file env disk path)) = [].
Proof. apply transcribe_quiet. Qed.

(** The calls of the hotkey-up handler when a file was produced. *)
Lemma released_calls env app disk r disk1 f calls1 :
  recording app = true ->
  stop_recording env (recorder app) disk = (r, disk1, Some f, calls1) ->
  snd (on_hotkey_released env app disk)
  = (Log INFO "Hotkey released - stopping recording" :: calls1)
    ++ snd (transcribe_audio_file env disk1 f)
    ++ (if transcription_accepted (fst (transcribe_audio_file env disk1 f))
        then paste_text_at_cursor env (fst (transcribe_audio_file env disk1 f))
             ++ [notify_completed]
        else [Log ERROR ("Transcription failed: "
                         +:+ fst (transcribe_audio_file env disk1 f));
              notify_transcription_failed]).
Proof.
  intros Hrec Hstop.
  rewrite (released_with_file env app disk r disk1 f calls1 Hrec Hstop).
  pose proof (stop_recording_file_truthy _ _ _ _ _ _ _ Hstop) as Htruthy.
  cbn [snd].
  destruct (transcription_accepted (fst (transcribe_audio_file env disk1 f)))
    eqn:Hacc.
  - now rewrite (process_accepted env _ disk1 f Htruthy Hacc).
  - now rewrite (process_rejected env _ disk1 f Htruthy Hacc).
Qed.

(** The history after the hotkey-up handler when a file was produced. *)
Lemma released_history env app disk r disk1 f calls1 :
  recording app = true ->
  stop_recording env (recorder app) disk = (r, disk1, Some f, calls1) ->
  history (fst (fst (on_hotkey_released env app disk)))
  = if transcription_accepted (fst (transcribe_audio_file env disk1 f))
    then history app
         ++ [{| timestamp := now_done env; audio_file := f;
                transcription := fst (transcribe_audio_file env disk1 f) |}]
    else history app.
Proof.
  intros Hrec Hstop.
  rewrite (released_with_file env app disk r disk1 f calls1 Hrec Hstop).
  pose proof (stop_recording_file_truthy _ _ _ _ _ _ _ Hstop) as Htruthy.
  cbn [fst].
  destruct (transcription_accepted (fst (transcribe_audio_file env disk1 f)))
    eqn:Hacc.
  - now rewrite (process_accepted env _ disk1 f Htruthy Hacc).
  - now rewrite (process_rejected env _ disk1 f Htruthy Hacc).
Qed.

End InHandler.

(** C9, as the program has it.  For every hotkey-up that produces a
    file (which can be read), the hotkey-up handler makes the request to
    the service itself: the request is among the handler's own calls,
    the handler starts no thread, and the notification that reports the
    outcome is sent by the same handler after the request, so the handler
    returns only once the transcription has returned. *)
Theorem C9_transcription_runs_in_handler env (app : SuperScribeApp)
        (disk : gmap string FileContent) r disk1 (f : string) calls1 :
  recording app = true ->
  stop_recording env (recorder app) disk = (r, disk1, Some f, calls1) ->
  file_read env = None ->
  exists content before after,
    disk1 !! f = Some content
    /\ snd (on_hotkey_released env app disk)
       = before ++ [GenerateContent model prompt (mime_type_of f) content]
                ++ after
    /\ threads_started (snd (on_hotkey_released env app disk)) = []
    /\ notifications before = []
    /\ (notifications after = [notify_completed]
        \/ notifications after = [notify_transcription_failed]).
Proof.
  intros Hrec Hstop Hread.
  destruct (stop_recording_file_on_disk _ _ _ _ _ _ _ Hstop)
    as (content & Hdisk & Hsize).
  destruct (transcribe_asks env disk1 f content Hdisk Hsize Hread)
    as (b & a & Hcalls & _ & _).
  pose proof (transcribe_invisible env disk1 f) as Hinv.
  apply invisible_notifications in Hinv.
  pose proof (transcribe_threads env disk1 f) as Hthr.
  pose proof (stop_recording_invisible env (recorder app) disk) as [Hsv Hst].
  rewrite Hstop in Hsv, Hst. simpl in Hsv, Hst.
  apply invisible_notifications in Hsv.
  rewrite (released_calls env app disk r disk1 f calls1 Hrec Hstop).
  rewrite Hcalls in *.
  rewrite !notifications_app in Hinv.
  apply app_eq_nil in Hinv as [Hb Ha0]. apply app_eq_nil in Ha0 as [_ Ha].
  set (tail := if transcription_accepted (fst (transcribe_audio_file env disk1 f))
               then _ else _).
  exists content,
    ((Log INFO "Hotkey released - stopping recording" :: calls1) ++ b),
    (a ++ tail).
  split; [exact Hdisk|]. split; [now rewrite <- !app_assoc|].
  split.
  - rewrite threads_started_app.
    change (threads_started (Log INFO "Hotkey released - stopping recording"
                             :: calls1)) with (threads_started calls1).
    rewrite Hst, threads_started_app, Hthr. subst tail.
    destruct (transcription_accepted _); [|reflexivity].
    now rewrite threads_started_app, (proj1 (paste_threads env _)).
  - split.
    + rewrite notifications_app.
      change (notifications (Log INFO "Hotkey released - stopping recording"
                             :: calls1)) with (notifications calls1).
      now rewrite Hsv, Hb.
    + rewrite notifications_app, Ha. subst tail.
      destruct (transcription_accepted _); [left | right; reflexivity].
      now rewrite notifications_app, (proj2 (paste_threads env _)).
Qed.

Lemma C9_witness :
  exists content before after,
    Sample.disk_with_recording !! Sample.wav_name = Some content
    /\ snd (on_hotkey_released Sample.env_hello Sample.busy_app ∅)
       = before
         ++ [GenerateContent model prompt (mime_type_of Sample.wav_name) content]
         ++ after
    /\ threads_started
         (snd (on_hotkey_released Sample.env_hello Sample.busy_app ∅)) = []
    /\ notifications before = []
    /\ (notifications after = [notify_completed]
        \/ notifications after = [notify_transcription_failed]).
Proof.
  apply (C9_transcription_runs_in_handler Sample.env_hello Sample.busy_app ∅
           (set_is_recording false Sample.busy_recorder)
           Sample.disk_with_recording
           Sample.wav_name
           [JoinThread "_record"; CloseStream; Log INFO "Recording stopped";
            WaveWrite Sample.wav_name;
            Log INFO ("Recording saved to " +:+ Sample.wav_name)]);
    reflexivity.
Defined.

(** C9 as stated fails: on a hotkey-up that produces a file, the
    handler's own calls hold the request to the service and no thread is
    started; what the handler returns depends on the service's answer. *)
Lemma C9_counterexample :
  existsb is_generate_content
          (snd (on_hotkey_released Sample.env_hello Sample.busy_app ∅)) = true
  /\ threads_started
       (snd (on_hotkey_released Sample.env_hello Sample.busy_app ∅)) = []
  /\ history (fst (fst (on_hotkey_released Sample.env_hello Sample.busy_app ∅)))
     <> history (fst (fst (on_hotkey_released
                             (Sample.env_answering (ServiceResponse None))
                             Sample.busy_app ∅)))
  /\ ~ (forall env app disk,
          recording app = true ->
          is_Some (snd (fst (stop_recording env (recorder app) disk))) ->
          existsb is_generate_content (snd (on_hotkey_released env app disk))
          = false).
Proof.
  split; [reflexivity|]. split; [reflexivity|]. split; [discriminate|].
  intros H.
  specialize (H Sample.env_hello Sample.busy_app ∅ eq_refl (mk_is_Some _ _ eq_refl)).
  discriminate H.
Qed.

(** C10.  (1) On every hotkey-up that produces a file, the text that
    [transcribe_audio_file] returned is handed to the clipboard and
    appended to the history if and only if it is not empty and does not
    begin with "Error:"; otherwise the history is unchanged and the user
    sees the failure notification only.  (2) For some input a genuine
    transcript, returned by the service as its text, begins with "Error:"
    and is treated as a failure: nothing is delivered, nothing is put in
    the history.  (3) Every value [transcribe_audio_file] returns, a
    failure included, is a string that the service can return as a
    transcript, and then comes back from [transcribe_audio_file]
    unchanged. *)
Theorem C10_classified_by_prefix :
  (forall env (app : SuperScribeApp) (disk : gmap string FileContent)
          r disk1 (f : string) calls1,
      recording app = true ->
      stop_recording env (recorder app) disk = (r, disk1, Some f, calls1) ->
      let text := fst (transcribe_audio_file env disk1 f) in
      let app' := fst (fst (on_hotkey_released env app disk)) in
      let calls := snd (on_hotkey_released env app disk) in
      let passes := text <> "" /\ ~ exists rest, text = "Error:" +:+ rest in
      ((history app'
        = history app ++ [{| timestamp := now_done env; audio_file := f;
                             transcription := text |}]
        /\ In (ClipboardCopy text) calls)
       <-> passes)
      /\ (~ passes ->
          history app' = history app
          /\ visible calls = [notify_transcription_failed]))
  /\ (let c := cycle Sample.env_error_transcript (map Chunk Sample.two_chunks)
                     Sample.new_app ∅ in
      produced c = Some Sample.wav_name
      /\ generate_content Sample.env_error_transcript "audio/wav"
                          (WavFile 1 2 44100%N (concat Sample.two_chunks))
         = ServiceResponse (Some "Error: disk not found, he said")
      /\ fst (transcribe_audio_file Sample.env_error_transcript (final_disk c)
                                    Sample.wav_name)
         = "Error: disk not found, he said"
      /\ history (final c) = []
      /\ visible (calls_made c) = [notify_transcription_failed])
  /\ (forall env (disk disk' : gmap string FileContent)
             (path path' : string) content,
         disk' !! path' = Some content -> file_size content <> 0 ->
         fst (transcribe_audio_file
                (Sample.env_answering
                   (ServiceResponse
                      (Some (fst (transcribe_audio_file env disk path)))))
                disk' path')
         = fst (transcribe_audio_file env disk path)).
Proof.
  split; [|split].
  - intros env app disk r disk1 f calls1 Hrec Hstop. simpl.
    rewrite (released_history env app disk r disk1 f calls1 Hrec Hstop).
    rewrite (released_calls env app disk r disk1 f calls1 Hrec Hstop).
    rewrite <- accepted_spec.
    pose proof (stop_recording_invisible env (recorder app) disk) as [Hsv _].
    rewrite Hstop in Hsv. simpl in Hsv.
    pose proof (transcribe_invisible env disk1 f) as Htv.
    destruct (transcription_accepted (fst (transcribe_audio_file env disk1 f))).
    + split; [|intros H; now elim H].
      split; [intros _; reflexivity|]. intros _. split; [reflexivity|].
      apply in_or_app. right. apply in_or_app. right.
      apply in_or_app. left. apply paste_copies.
    + split.
      * split; [|discriminate]. intros [H _]. symmetry in H.
        now apply app_one_more in H.
      * intros _. split; [reflexivity|].
        rewrite visible_app, visible_log, visible_app, Hsv, Htv. reflexivity.
  - simpl. repeat split; reflexivity.
  - intros env disk disk' path path' content Hdisk Hsize.
    set (s := fst (transcribe_audio_file env disk path)).
    exact (transcribe_answer
             (Sample.env_answering (ServiceResponse (Some s)))
             disk' path' content Hdisk Hsize eq_refl).
Qed.

(** * Further properties of the code *)

(** ** Construction of the recorder *)

Section Devices.

Import Construction.

Lemma first_input_spec (devs : list DeviceInfo) :
  forall i0,
    match first_input i0 devs with
    | Some (i, d) =>
        i0 <= i
        /\ devs !! (i - i0) = Some d
        /\ (0 < maxInputChannels d)%Z
        /\ forall j d', j < i - i0 -> devs !! j = Some d' ->
                        (maxInputChannels d' <= 0)%Z
    | None => forall d, d ∈ devs -> (maxInputChannels d <= 0)%Z
    end.
Proof.
  induction devs as [|d devs IH]; intros i0; simpl.
  - intros d Hd. inversion Hd.
  - destruct (0 <? maxInputChannels d)%Z eqn:Hd.
    + apply Z.ltb_lt in Hd. rewrite Nat.sub_diag. simpl.
      repeat split; [lia | exact Hd | intros j d' Hj; lia].
    + apply Z.ltb_ge in Hd. specialize (IH (S i0)).
      destruct (first_input (S i0) devs) as [[i d1]|].
      * destruct IH as (Hle & Hlook & Hpos & Hbefore).
        replace (i - i0) with (S (i - S i0)) by lia. simpl.
        repeat split; [lia | exact Hlook | exact Hpos |].
        intros [|j] d' Hj Hl; simpl in Hl.
        -- now injection Hl as <-.
        -- apply (Hbefore j d'); [lia | exact Hl].
      * intros d' Hin. apply elem_of_cons in Hin as [->|Hin]; [exact Hd|].
        now apply IH.
Qed.

(** What [get_input_device_index] returns. *)
Lemma selected_device (devs : list DeviceInfo) :
  match fst (get_input_device_index devs) with
  | Some i =>
      exists d,
        devs !! i = Some d
        /\ (0 < maxInputChannels d)%Z
        /\ forall j d', j < i -> devs !! j = Some d' ->
                        (maxInputChannels d' <= 0)%Z
  | None => forall d, d ∈ devs -> (maxInputChannels d <= 0)%Z
  end.
Proof.
  unfold get_input_device_index.
  pose proof (first_input_spec devs 0) as H.
  destruct (first_input 0 devs) as [[i d]|]; simpl.
  - destruct H as (_ & Hlook & Hpos & Hbefore).
    rewrite Nat.sub_0_r in *. eauto.
  - exact H.
Qed.

End Devices.

(** X1.  [get_input_device_index] returns the index of the first device
    that has input channels: the device at that index has more than zero
    of them and every device before it has none; it returns [None]
    exactly when no device has any. *)
Theorem X1_first_device_with_input (devs : list Construction.DeviceInfo) :
  match fst (Construction.get_input_device_index devs) with
  | Some i =>
      exists d,
        devs !! i = Some d
        /\ (0 < Construction.maxInputChannels d)%Z
        /\ forall j d', j < i -> devs !! j = Some d' ->
                        (Construction.maxInputChannels d' <= 0)%Z
  | None =>
      forall d, d ∈ devs -> (Construction.maxInputChannels d <= 0)%Z
  end.
Proof. exact (selected_device devs). Qed.

(** X2.  The constructor of [AudioRecorder] never gives a recorder
    without an audio handle, and what it does is decided as follows.  It
    raises the exception of the storage directory exactly when the
    directory cannot be created.  Otherwise it raises [ValueError] with
    the message "Audio initialization failed: e" exactly when
    [pyaudio.PyAudio()] raises [e], or a call of the device enumeration
    raises [e], or no device has input channels ([e] is then "No suitable
    input device found. ...").  Otherwise the recorder is idle with an
    empty buffer, keeps the storage directory, its device is the first
    that has input channels, and [start_recording] on it succeeds exactly
    when the stream can be opened. *)
Theorem X2_constructed_recorder_is_ready (sys : Construction.AudioSystem)
        (dir : string) :
  match fst (Construction.init sys dir) with
  | inl r =>
      Construction.makedirs sys = None
      /\ Construction.pyaudio_new sys = None
      /\ Construction.enumeration_error sys = None
      /\ is_recording r = false
      /\ frames r = []
      /\ storage_dir r = dir
      /\ (exists pa d,
             audio r = Some pa
             /\ Construction.devices sys !! device_index pa = Some d
             /\ (0 < Construction.maxInputChannels d)%Z
             /\ forall j d', j < device_index pa ->
                             Construction.devices sys !! j = Some d' ->
                             (Construction.maxInputChannels d' <= 0)%Z)
      /\ forall env,
          snd (fst (start_recording env r)) = true <-> audio_open env = None
  | inr (Construction.StorageError e) => Construction.makedirs sys = Some e
  | inr (Construction.ValueError msg) =>
      Construction.makedirs sys = None
      /\ exists e,
          msg = "Audio initialization failed: " +:+ e
          /\ (Construction.pyaudio_new sys = Some e
              \/ (Construction.pyaudio_new sys = None
                  /\ exists logged,
                      Construction.enumeration_error sys = Some (e, logged))
              \/ (Construction.pyaudio_new sys = None
                  /\ Construction.enumeration_error sys = None
                  /\ e = Construction.no_device_message
                  /\ forall d, d ∈ Construction.devices sys ->
                               (Construction.maxInputChannels d <= 0)%Z))
  end.
Proof.
  unfold Construction.init.
  destruct (Construction.makedirs sys) as [e0|]; [reflexivity|].
  destruct (Construction.pyaudio_new sys) as [e|]; cbn [fst].
  { split; [reflexivity|]. exists e. auto. }
  destruct (Construction.enumeration_error sys) as [[e logged]|]; cbn [fst].
  { split; [reflexivity|]. exists e. split; [reflexivity|]. right. left. eauto. }
  pose proof (selected_device (Construction.devices sys)) as H.
  destruct (Construction.get_input_device_index (Construction.devices sys))
    as [[i|] calls]; cbn [fst] in *.
  - destruct H as (d & Hlook & Hpos & Hbefore).
    do 6 (split; [reflexivity|]).
    split; [exists {| device_index := i |}, d; auto|].
    intros env. unfold start_recording. simpl.
    destruct (audio_open env); split; (discriminate || reflexivity).
  - split; [reflexivity|]. exists Construction.no_device_message.
    split; [reflexivity|]. right. right. auto.
Qed.

(** The four ways the constructor can end, on one machine with a
    loopback output first and a microphone second. *)
Example constructor_outcomes :
  let devs :=
    [{| Construction.name := "Speakers"; Construction.maxInputChannels := 0 |};
     {| Construction.name := "Microphone"; Construction.maxInputChannels := 2 |}] in
  let sys dirs pa enum ds :=
    {| Construction.makedirs := dirs; Construction.pyaudio_new := pa;
       Construction.enumeration := enum; Construction.devices := ds |} in
  (exists r, fst (Construction.init (sys None None None devs) "recordings") = inl r
             /\ audio r = Some {| device_index := 1 |})
  /\ fst (Construction.init (sys (Some "Access is denied") None None devs)
                            "recordings")
     = inr (Construction.StorageError "Access is denied")
  /\ fst (Construction.init
            (sys None None (Some (Construction.SecondLoopRaises 1 "Invalid device"))
                 devs) "recordings")
     = inr (Construction.ValueError
              "Audio initialization failed: Invalid device")
  /\ fst (Construction.init (sys None None None (take 1 devs)) "recordings")
     = inr (Construction.ValueError
              ("Audio initialization failed: "
               +:+ Construction.no_device_message)).
Proof. simpl. repeat split. eexists. split; reflexivity. Qed.

(** ** Recording sessions *)

Section Sessions.

(** The capture loop keeps what it read before the first exception and
    ignores every later read. *)
Lemma record_until_error (before : list bytes) (e : string)
      (rest : list ReadAnswer) :
  forall r, is_recording r = true ->
    _record (map Chunk before ++ ReadRaises e :: rest) r
    = (set_is_recording false (set_frames (frames r ++ before) r),
       [Log ERROR ("Error during recording: " +:+ e)]).
Proof.
  induction before as [|c before IH]; intros r Hrec; simpl.
  - rewrite Hrec, List.app_nil_r. now destruct r.
  - rewrite Hrec, IH by exact Hrec. simpl. now rewrite <- app_assoc.
Qed.

(** A recorder whose flag is down is left alone by [stop_recording]. *)
Lemma stop_when_not_recording env r (disk : gmap string FileContent) :
  is_recording r = false -> stop_recording env r disk = (r, disk, None, []).
Proof. unfold stop_recording. now intros ->. Qed.

Lemma append_assoc_string (a b c : string) :
  (a +:+ b) +:+ c = a +:+ (b +:+ c).
Proof.
  induction a as [|x a IH]; [reflexivity|].
  now rewrite !append_cons, IH.
Qed.

(** The name of a recording ends with ".wav". *)
Lemma recording_name_wav (dir stamp : string) :
  exists stem,
    os_path_join dir ("recording_" +:+ stamp +:+ ".wav") = stem +:+ ".wav".
Proof.
  unfold os_path_join.
  destruct (PyStr.truthy dir);
    [destruct (PyStr.endswith dir "\" || PyStr.endswith dir "/")|].
  - exists (dir +:+ "recording_" +:+ stamp).
    now rewrite !append_assoc_string.
  - exists (dir +:+ "\" +:+ "recording_" +:+ stamp).
    now rewrite !append_assoc_string.
  - exists ("recording_" +:+ stamp). now rewrite !append_assoc_string.
Qed.

(** A file [stop_recording] returns is typed audio/wav. *)
Lemma recording_mime env r disk r' disk' f calls :
  stop_recording env r disk = (r', disk', Some f, calls) ->
  mime_type_of f = "audio/wav".
Proof.
  intros H. apply stop_recording_file in H as (_ & _ & _ & -> & _).
  destruct (recording_name_wav (storage_dir r)
                               (strftime_compact (now_stop env)))
    as [stem ->].
  pose proof (exact_extension stem ".wav" eq_refl) as Hext.
  apply has_extension_endswith in Hext.
  unfold mime_type_of.
  now rewrite (extension_unique _ ".wav" ".mp3" eq_refl eq_refl
                 ltac:(discriminate) Hext), Hext.
Qed.

Lemma no_request_in (calls : list Call) :
  existsb is_generate_content calls = false ->
  List.filter is_generate_content calls = [].
Proof.
  induction calls as [|c calls IH]; [reflexivity|]. simpl.
  destruct (is_generate_content c); [discriminate | exact IH].
Qed.

Lemma stop_recording_asks_nothing env r (disk : gmap string FileContent) :
  List.filter is_generate_content (snd (stop_recording env r disk)) = [].
Proof.
  unfold stop_recording.
  destruct (negb (is_recording r) || negb (bool_decide (is_Some (audio r))));
    [reflexivity|].
  destruct (recording_thread r), (stream r);
    destruct (stream_close env), (frames r), (wave_write env); reflexivity.
Qed.

Lemma paste_asks_nothing env text :
  List.filter is_generate_content (paste_text_at_cursor env text) = [].
Proof.
  unfold paste_text_at_cursor.
  now destruct (clipboard_copy env), (send_hotkey env).
Qed.

(** A session in which nothing raises is saved whole. *)
Lemma stop_session env r (disk : gmap string FileContent)
      (chunks : list bytes) :
  recording_session r chunks -> chunks <> [] ->
  stream_close env = None -> wave_write env = None ->
  exists f calls,
    stop_recording env r disk
    = (set_is_recording false r,
       <[f := WavFile 1 2 44100%N (concat chunks)]> disk, Some f, calls).
Proof.
  intros (Hrec & Ha & Hfr) Hne Hclose Hwrite.
  unfold stop_recording.
  rewrite Hrec, (bool_decide_eq_true_2 _ Ha), Hclose, Hwrite, Hfr. simpl.
  replace (if stream r then None else None) with (@None string)
    by now destruct (stream r).
  destruct chunks as [|c chunks]; [now elim Hne|].
  do 2 eexists. reflexivity.
Qed.

End Sessions.

(** X3.  A session writes what it captured and nothing older.  Whatever
    the buffer held before, after a [start_recording] that succeeds and
    the capture of the chunks, a [stop_recording] in which nothing raises
    writes one WAVE file whose data is the concatenation of exactly these
    chunks. *)
Theorem X3_session_file_is_what_was_captured env env' (r : AudioRecorder)
        (disk : gmap string FileContent) (chunks : list bytes) :
  is_Some (audio r) ->
  audio_open env = None ->
  chunks <> [] ->
  stream_close env' = None ->
  wave_write env' = None ->
  let r1 := fst (fst (start_recording env r)) in
  let r2 := fst (_record (map Chunk chunks) r1) in
  exists f calls,
    stop_recording env' r2 disk
    = (set_is_recording false r2,
       <[f := WavFile 1 2 44100%N (concat chunks)]> disk, Some f, calls).
Proof.
  intros [pa Ha] Hopen Hne Hclose Hwrite. simpl.
  assert (Hstart : start_recording env r
                   = (fst (fst (start_recording env r)), true,
                      snd (start_recording env r))).
  { unfold start_recording. now rewrite Ha, Hopen. }
  pose proof (started_session env r _ _ chunks Hstart) as Hsession.
  now apply stop_session.
Qed.

Lemma X3_witness :
  let r1 := fst (fst (start_recording Sample.env_hello Sample.busy_recorder)) in
  let r2 := fst (_record (map Chunk [[Byte.x0a]]) r1) in
  exists f calls,
    stop_recording Sample.env_hello r2 ∅
    = (set_is_recording false r2,
       <[f := WavFile 1 2 44100%N (concat [[Byte.x0a]])]> ∅, Some f, calls).
Proof.
  apply (X3_session_file_is_what_was_captured Sample.env_hello Sample.env_hello
           Sample.busy_recorder ∅ [[Byte.x0a]]);
    solve [reflexivity | discriminate | simpl; eauto].
Defined.

(** X4.  [stop_recording] is idempotent: called again on what the first
    call left, it returns [None], changes neither the recorder nor the
    disk, and calls nothing. *)
Theorem X4_stop_twice env env' (r : AudioRecorder)
        (disk : gmap string FileContent) :
  stop_recording env' (fst (fst (fst (stop_recording env r disk))))
                 (snd (fst (fst (stop_recording env r disk))))
  = (fst (fst (fst (stop_recording env r disk))),
     snd (fst (fst (stop_recording env r disk))), None, []).
Proof.
  unfold stop_recording at 2 3 4 5.
  destruct (negb (is_recording r) || negb (bool_decide (is_Some (audio r))))
    eqn:Hguard.
  { simpl. unfold stop_recording. now rewrite Hguard. }
  destruct (if stream r then stream_close env else None);
    [apply stop_when_not_recording; reflexivity|].
  destruct (frames r); [apply stop_when_not_recording; reflexivity|].
  destruct (wave_write env); apply stop_when_not_recording; reflexivity.
Qed.

(** X6.  The file name is made of the storage directory and the clock
    read to the second, so two recordings stopped within the same second
    get the same name and the later one replaces the earlier one on
    disk. *)
Theorem X6_same_second_overwrites env env' (r r' : AudioRecorder)
        (disk : gmap string FileContent) r1 d1 f1 c1 r2 d2 f2 c2 :
  stop_recording env r disk = (r1, d1, Some f1, c1) ->
  stop_recording env' r' d1 = (r2, d2, Some f2, c2) ->
  now_stop env = now_stop env' ->
  storage_dir r = storage_dir r' ->
  f2 = f1
  /\ d2 = <[f1 := WavFile channels sample_size rate (join_frames (frames r'))]>
            disk.
Proof.
  intros H1 H2 Hnow Hdir.
  apply stop_recording_file in H1 as (_ & _ & _ & Hf1 & ->).
  apply stop_recording_file in H2 as (_ & _ & _ & Hf2 & ->).
  assert (f2 = f1) as -> by (rewrite Hf1, Hf2, Hnow, Hdir; reflexivity).
  split; [reflexivity|]. apply insert_insert_eq.
Qed.

Lemma X6_witness :
  Sample.wav_name = Sample.wav_name
  /\ <[Sample.wav_name := WavFile channels sample_size rate
                                  (join_frames [[Byte.xff]])]>
       Sample.disk_with_recording
     = <[Sample.wav_name := WavFile channels sample_size rate
                                    (join_frames
                                       (frames (set_frames [[Byte.xff]]
                                                  Sample.busy_recorder)))]>
         (∅ : gmap string FileContent).
Proof.
  apply (X6_same_second_overwrites Sample.env_hello Sample.env_timeout
           Sample.busy_recorder (set_frames [[Byte.xff]] Sample.busy_recorder)
           ∅ (set_is_recording false Sample.busy_recorder)
           Sample.disk_with_recording Sample.wav_name
           [JoinThread "_record"; CloseStream; Log INFO "Recording stopped";
            WaveWrite Sample.wav_name;
            Log INFO ("Recording saved to " +:+ Sample.wav_name)]
           (set_is_recording false (set_frames [[Byte.xff]] Sample.busy_recorder))
           _ Sample.wav_name
           [JoinThread "_record"; CloseStream; Log INFO "Recording stopped";
            WaveWrite Sample.wav_name;
            Log INFO ("Recording saved to " +:+ Sample.wav_name)]);
    reflexivity.
Defined.

(** ** Cycles that produce no file *)

Section NoFile.

(** The capture thread of a cycle runs exactly when [start_recording]
    returned [True]. *)
Lemma thread_started_iff env r :
  existsb is_start_thread
          (Log INFO "Hotkey pressed - starting recording"
           :: snd (start_recording env r))
  = snd (fst (start_recording env r)).
Proof.
  unfold start_recording. destruct (audio r); [|reflexivity].
  now destruct (audio_open env).
Qed.

(** A cycle begun in the idle state, step by step. *)
Lemma cycle_steps env (reads : list ReadAnswer) (app : SuperScribeApp)
      (disk : gmap string FileContent) :
  recording app = false ->
  let started := start_recording env (recorder app) in
  let captured :=
    if snd (fst started) then _record reads (fst (fst started))
    else (fst (fst started), []) in
  let app2 :=
    {| recorder := fst captured; recording := true; history := history app |} in
  cycle env reads app disk
  = {| final := fst (fst (on_hotkey_released env app2 disk));
       final_disk := snd (fst (on_hotkey_released env app2 disk));
       produced :=
         file_produced (snd (fst (stop_recording env (fst captured) disk)));
       calls_made :=
         (Log INFO "Hotkey pressed - starting recording" :: snd started)
         ++ snd captured ++ snd (on_hotkey_released env app2 disk) |}.
Proof.
  intros Hidle. simpl. unfold cycle.
  rewrite (pressed_when_idle env app Hidle), thread_started_iff.
  cbn [recorder set_recorder set_recording].
  destruct (if snd (fst (start_recording env (recorder app)))
            then _record reads (fst (fst (start_recording env (recorder app))))
            else (fst (fst (start_recording env (recorder app))), []))
    as [r2 calls2].
  cbn [fst snd recorder set_recorder set_recording recording history].
  destruct (stop_recording env r2 disk) as [[[r3 disk3] file] calls3].
  now destruct (on_hotkey_released env _ disk) as [[app3 disk4] calls4].
Qed.

(** The hotkey-up handler when [stop_recording] returns no file. *)
Lemma released_without_file env (app : SuperScribeApp)
      (disk : gmap string FileContent) r calls1 :
  recording app = true ->
  stop_recording env (recorder app) disk = (r, disk, None, calls1) ->
  on_hotkey_released env app disk
  = (set_recorder r (set_recording false app), disk,
     (Log INFO "Hotkey released - stopping recording" :: calls1)
     ++ [Log ERROR "No audio file created"; notify_recording_failed]).
Proof.
  intros Hrec Hstop. unfold on_hotkey_released, released_stop.
  rewrite Hrec. simpl. now rewrite Hstop.
Qed.

(** With an empty buffer [stop_recording] returns no file and leaves
    the disk alone. *)
Lemma stop_empty_buffer env r (disk : gmap string FileContent) :
  frames r = [] ->
  exists r' calls, stop_recording env r disk = (r', disk, None, calls).
Proof.
  intros Hfr. unfold stop_recording. rewrite Hfr.
  destruct (negb (is_recording r) || negb (bool_decide (is_Some (audio r))));
    [eauto|].
  destruct (if stream r then stream_close env else None); eauto.
Qed.

End NoFile.

(** X5.  A read error during the capture loses the recording.  In a
    cycle begun in the idle state in which the stream opens and a read
    raises after some chunks, the chunks read before the error stay in
    the buffer but [stop_recording] writes nothing: no file is produced,
    the disk and the history are unchanged, the only thing the user sees
    is the notification "Recording failed. Check microphone connection.",
    and the controller is idle again. *)
Theorem X5_read_error_loses_recording env (app : SuperScribeApp)
        (disk : gmap string FileContent) (before : list bytes)
        (e : string) (rest : list ReadAnswer) :
  recording app = false ->
  is_Some (audio (recorder app)) ->
  audio_open env = None ->
  let c := cycle env (map Chunk before ++ ReadRaises e :: rest) app disk in
  produced c = None
  /\ final_disk c = disk
  /\ history (final c) = history app
  /\ frames (recorder (final c)) = before
  /\ visible (calls_made c) = [notify_recording_failed]
  /\ recording (final c) = false.
Proof.
  intros Hidle [pa Ha] Hopen. simpl.
  rewrite (cycle_steps env _ app disk Hidle). cbn [final final_disk produced calls_made].
  assert (Hstart : start_recording env (recorder app)
                   = (set_started (set_is_recording true (set_frames [] (recorder app))),
                      true,
                      [OpenStream (device_index pa) channels rate chunk;
                       Log INFO ("Recording started with device index "
                                 +:+ pretty (device_index pa));
                       StartThread "_record"])).
  { unfold start_recording. now rewrite Ha, Hopen. }
  rewrite Hstart. cbn [fst snd].
  rewrite record_until_error by reflexivity. cbn [fst snd].
  set (r2 := set_is_recording false _).
  assert (Hstop : stop_recording env r2 disk = (r2, disk, None, []))
    by (apply stop_when_not_recording; reflexivity).
  rewrite Hstop. cbn [fst snd].
  rewrite (released_without_file
             env {| recorder := r2; recording := true; history := history app |}
             disk r2 [] eq_refl Hstop).
  cbn [fst snd]. repeat split.
Qed.

Lemma X5_witness :
  let c := cycle Sample.env_hello
                 (map Chunk Sample.two_chunks
                  ++ ReadRaises "Unanticipated host error" :: [Chunk [Byte.x05]])
                 Sample.new_app ∅ in
  produced c = None
  /\ final_disk c = ∅
  /\ history (final c) = history Sample.new_app
  /\ frames (recorder (final c)) = Sample.two_chunks
  /\ visible (calls_made c) = [notify_recording_failed]
  /\ recording (final c) = false.
Proof.
  apply (X5_read_error_loses_recording Sample.env_hello Sample.new_app ∅
           Sample.two_chunks "Unanticipated host error" [Chunk [Byte.x05]]);
    solve [reflexivity | simpl; eauto].
Defined.

(** X8.  A press too short to capture a chunk is reported as a failed
    recording.  In every cycle begun in the idle state in which the
    capture thread reads nothing, whatever the environment does and
    whether or not the stream could be opened, no file is produced, the
    disk and the history are unchanged, the only thing the user sees is
    the notification "Recording failed. Check microphone connection.",
    and the controller is idle again. *)
Theorem X8_short_press_reports_failure env (app : SuperScribeApp)
        (disk : gmap string FileContent) :
  recording app = false ->
  let c := cycle env [] app disk in
  produced c = None
  /\ final_disk c = disk
  /\ history (final c) = history app
  /\ visible (calls_made c) = [notify_recording_failed]
  /\ recording (final c) = false.
Proof.
  intros Hidle. simpl.
  rewrite (cycle_steps env [] app disk Hidle).
  cbn [final final_disk produced calls_made].
  set (started := start_recording env (recorder app)).
  assert (Hcap : (if snd (fst started) then _record [] (fst (fst started))
                  else (fst (fst started), []))
                 = (fst (fst started), []))
    by now destruct (snd (fst started)).
  rewrite Hcap. cbn [fst snd].
  assert (Hfr : frames (fst (fst started)) = []
                \/ audio (fst (fst started)) = None).
  { subst started. unfold start_recording.
    destruct (audio (recorder app)) eqn:Ha; [|now right].
    left. now destruct (audio_open env). }
  assert (Hstop : exists r calls,
             stop_recording env (fst (fst started)) disk = (r, disk, None, calls)).
  { destruct Hfr as [Hfr|Hnone].
    - exact (stop_empty_buffer env (fst (fst started)) disk Hfr).
    - unfold stop_recording. rewrite Hnone.
      rewrite (bool_decide_eq_false_2 (is_Some None)) by apply is_Some_None.
      rewrite orb_true_r. eauto. }
  destruct Hstop as (r & calls & Hstop). rewrite Hstop. cbn [fst snd].
  rewrite (released_without_file
             env {| recorder := fst (fst started); recording := true;
                    history := history app |}
             disk r calls eq_refl Hstop).
  cbn [fst snd recording history set_recorder set_recording].
  repeat split.
  rewrite !visible_app, visible_log.
  change (visible (snd started)) with (visible (snd (start_recording env (recorder app)))).
  rewrite start_recording_invisible, visible_log.
  pose proof (stop_recording_invisible env (fst (fst started)) disk) as [Hv _].
  rewrite Hstop in Hv. cbn [snd] in Hv. rewrite Hv. reflexivity.
Qed.

Lemma X8_witness :
  let c := cycle Sample.env_hello [] Sample.new_app ∅ in
  produced c = None
  /\ final_disk c = ∅
  /\ history (final c) = history Sample.new_app
  /\ visible (calls_made c) = [notify_recording_failed]
  /\ recording (final c) = false.
Proof.
  apply (X8_short_press_reports_failure Sample.env_hello Sample.new_app ∅).
  reflexivity.
Defined.

(** ** What the handlers keep *)

Section Flags.

Lemma pressed_sets_flag env app :
  recording (fst (on_hotkey_pressed env app)) = true.
Proof.
  destruct (recording app) eqn:Hrec.
  - now rewrite (pressed_while_recording env app Hrec).
  - now rewrite (pressed_when_idle env app Hrec).
Qed.

Lemma start_keeps_audio env r :
  audio (fst (fst (start_recording env r))) = audio r
  /\ storage_dir (fst (fst (start_recording env r))) = storage_dir r.
Proof.
  unfold start_recording. destruct (audio r) eqn:Ha; [|now split].
  now destruct (audio_open env).
Qed.

Lemma record_keeps_audio (reads : list ReadAnswer) :
  forall r, audio (fst (_record reads r)) = audio r
            /\ storage_dir (fst (_record reads r)) = storage_dir r.
Proof.
  induction reads as [|[data|e] reads IH]; intros r; simpl;
    [now split | |]; destruct (is_recording r); try now split.
  destruct (IH (set_frames (frames r ++ [data]) r)) as [H1 H2]. now split.
Qed.

Lemma stop_keeps_audio env r (disk : gmap string FileContent) :
  audio (fst (fst (fst (stop_recording env r disk)))) = audio r
  /\ storage_dir (fst (fst (fst (stop_recording env r disk)))) = storage_dir r.
Proof.
  unfold stop_recording.
  destruct (negb (is_recording r) || negb (bool_decide (is_Some (audio r))));
    [now split|].
  destruct (if stream r then stream_close env else None); [now split|].
  destruct (frames r); [now split|].
  now destruct (wave_write env).
Qed.

(** The second half of the hotkey-up handler leaves the recorder and the
    flag as they are. *)
Lemma process_keeps env app (disk : gmap string FileContent) file :
  recorder (fst (released_process env app disk file)) = recorder app
  /\ recording (fst (released_process env app disk file)) = recording app.
Proof.
  unfold released_process. destruct (file_produced file) as [f|]; [|now split].
  destruct (transcribe_audio_file env disk f) as [text calls].
  now destruct (transcription_accepted text).
Qed.

(** The hotkey-up handler, whatever the state: the application comes
    out with the flag down, and with the recorder as [stop_recording]
    left it when the flag was set. *)
Lemma released_state env app (disk : gmap string FileContent) :
  recording (fst (fst (on_hotkey_released env app disk))) = false
  /\ recorder (fst (fst (on_hotkey_released env app disk)))
     = if recording app
       then fst (fst (fst (stop_recording env (recorder app) disk)))
       else recorder app.
Proof.
  unfold on_hotkey_released, released_stop.
  destruct (recording app) eqn:Hrec; [|now split].
  cbn [recorder set_recording].
  destruct (stop_recording env (recorder app) disk) as [[[r d] file] calls].
  pose proof (process_keeps env (set_recorder r (set_recording false app))
                            d file) as [Hr Hf].
  destruct (released_process env (set_recorder r (set_recording false app))
                             d file) as [app2 calls2].
  simpl in *. now split.
Qed.

(** The application a cycle ends in. *)
Lemma cycle_final env (reads : list ReadAnswer) app
      (disk : gmap string FileContent) :
  exists app2,
    recording app2 = true
    /\ audio (recorder app2) = audio (recorder app)
    /\ final (cycle env reads app disk)
       = fst (fst (on_hotkey_released env app2 disk)).
Proof.
  unfold cycle.
  pose proof (pressed_sets_flag env app) as Hflag.
  assert (Haudio : audio (recorder (fst (on_hotkey_pressed env app)))
                   = audio (recorder app)).
  { destruct (recording app) eqn:Hrec.
    - now rewrite (pressed_while_recording env app Hrec).
    - rewrite (pressed_when_idle env app Hrec). simpl.
      apply start_keeps_audio. }
  destruct (on_hotkey_pressed env app) as [app1 calls1]. simpl in *.
  assert (Hcap : audio (fst (if existsb is_start_thread calls1
                             then _record reads (recorder app1)
                             else (recorder app1, [])))
                 = audio (recorder app1)).
  { destruct (existsb is_start_thread calls1);
      [apply record_keeps_audio | reflexivity]. }
  destruct (if existsb is_start_thread calls1
            then _record reads (recorder app1)
            else (recorder app1, [])) as [r2 calls2].
  simpl in Hcap.
  exists (set_recorder r2 app1).
  split; [exact Hflag|]. split; [simpl; congruence|].
  cbn [recorder set_recorder].
  destruct (stop_recording env r2 disk) as [[[r3 d3] file] calls3].
  now destruct (on_hotkey_released env (set_recorder r2 app1) disk)
    as [[app3 d4] calls4].
Qed.

End Flags.

(** X9.  Every cycle ends in the idle state.  From any state of the
    application (idle or not) and whatever the environment does, after a
    hotkey-down, the capture and a hotkey-up the controller's flag is
    down; and when the recorder has its audio handle, the recorder's flag
    is down too. *)
Theorem X9_every_cycle_ends_idle env (reads : list ReadAnswer)
        (app : SuperScribeApp) (disk : gmap string FileContent) :
  recording (final (cycle env reads app disk)) = false
  /\ (is_Some (audio (recorder app)) ->
      is_recording (recorder (final (cycle env reads app disk))) = false).
Proof.
  destruct (cycle_final env reads app disk) as (app2 & Hflag & Haudio & ->).
  pose proof (released_state env app2 disk) as [Hdown Hrec].
  split; [exact Hdown|]. intros Ha. rewrite Hrec, Hflag.
  destruct (stop_recording env (recorder app2) disk)
    as [[[r d] file] calls] eqn:Hstop.
  simpl. apply (stop_recording_flag _ _ _ _ _ _ _ Hstop). now rewrite Haudio.
Qed.

(** X10.  Repeated events are ignored.  A hotkey-down that follows a
    hotkey-down (key repeat) changes nothing and calls nothing, whatever
    the first one did; and so does a hotkey-up that follows a
    hotkey-up. *)
Theorem X10_repeated_events_ignored env1 env2 (app : SuperScribeApp)
        (disk : gmap string FileContent) :
  on_hotkey_pressed env2 (fst (on_hotkey_pressed env1 app))
  = (fst (on_hotkey_pressed env1 app), [])
  /\ on_hotkey_released env2 (fst (fst (on_hotkey_released env1 app disk)))
                        (snd (fst (on_hotkey_released env1 app disk)))
     = (fst (fst (on_hotkey_released env1 app disk)),
        snd (fst (on_hotkey_released env1 app disk)), []).
Proof.
  split.
  - apply pressed_while_recording, pressed_sets_flag.
  - pose proof (released_state env1 app disk) as [Hdown _].
    unfold on_hotkey_released at 1. now rewrite Hdown.
Qed.

(** ** What the hotkey-up handler sends *)

(** X7.  The service gets the recording, once.  On every hotkey-up
    that produces a file (which can be read), the handler makes exactly
    one request to the service, and that request carries the content type
    audio/wav and the WAVE file made of the frames the recorder held. *)
Theorem X7_service_gets_the_recording env (app : SuperScribeApp)
        (disk : gmap string FileContent) r disk1 (f : string) calls1 :
  recording app = true ->
  stop_recording env (recorder app) disk = (r, disk1, Some f, calls1) ->
  file_read env = None ->
  List.filter is_generate_content (snd (on_hotkey_released env app disk))
  = [GenerateContent model prompt "audio/wav"
       (WavFile 1 2 44100%N (concat (frames (recorder app))))].
Proof.
  intros Hrec Hstop Hread.
  rewrite (released_calls env app disk r disk1 f calls1 Hrec Hstop).
  pose proof (stop_recording_asks_nothing env (recorder app) disk) as Hs.
  rewrite Hstop in Hs. cbn [snd] in Hs.
  pose proof (recording_mime _ _ _ _ _ _ _ Hstop) as Hmime.
  pose proof (stop_recording_file _ _ _ _ _ _ _ Hstop) as (_ & _ & _ & _ & Hd).
  assert (Hlook : disk1 !! f
                  = Some (WavFile channels sample_size rate
                                  (join_frames (frames (recorder app)))))
    by (rewrite Hd; apply lookup_insert_eq).
  destruct (transcribe_asks env disk1 f _ Hlook
              ltac:(unfold file_size, wav_header_size; lia) Hread)
    as (b & a & Hcalls & Hb & Ha).
  rewrite Hcalls, Hmime.
  rewrite !List.filter_app. cbn [List.filter is_generate_content].
  rewrite Hs, (no_request_in b Hb), (no_request_in a Ha).
  destruct (transcription_accepted _); [|reflexivity].
  now rewrite List.filter_app, paste_asks_nothing.
Qed.

Lemma X7_witness :
  List.filter is_generate_content
              (snd (on_hotkey_released Sample.env_hello Sample.busy_app ∅))
  = [GenerateContent model prompt "audio/wav"
       (WavFile 1 2 44100%N (concat (frames (recorder Sample.busy_app))))].
Proof.
  apply (X7_service_gets_the_recording Sample.env_hello Sample.busy_app ∅
           (set_is_recording false Sample.busy_recorder)
           Sample.disk_with_recording Sample.wav_name
           [JoinThread "_record"; CloseStream; Log INFO "Recording stopped";
            WaveWrite Sample.wav_name;
            Log INFO ("Recording saved to " +:+ Sample.wav_name)]);
    reflexivity.
Defined.

(** X11.  One notification per hotkey-up handled, none otherwise.  A
    hotkey-up received while the flag is set sends exactly one tray
    notification, whatever happens in it: the success one, "Transcription
    failed" or "Recording failed".  A hotkey-down never notifies, and a
    hotkey-up received while the flag is down does nothing. *)
Theorem X11_one_notification_per_release env (app : SuperScribeApp)
        (disk : gmap string FileContent) :
  notifications (snd (on_hotkey_pressed env app)) = []
  /\ (recording app = false -> on_hotkey_released env app disk = (app, disk, []))
  /\ (recording app = true ->
      notifications (snd (on_hotkey_released env app disk)) = [notify_completed]
      \/ notifications (snd (on_hotkey_released env app disk))
         = [notify_transcription_failed]
      \/ notifications (snd (on_hotkey_released env app disk))
         = [notify_recording_failed]).
Proof.
  split; [|split].
  - destruct (recording app) eqn:Hrec.
    + now rewrite (pressed_while_recording env app Hrec).
    + rewrite (pressed_when_idle env app Hrec). cbn [snd].
      apply invisible_notifications. rewrite visible_log.
      apply start_recording_invisible.
  - intros Hrec. unfold on_hotkey_released. now rewrite Hrec.
  - intros Hrec.
    pose proof (stop_recording_invisible env (recorder app) disk) as [Hv _].
    apply invisible_notifications in Hv.
    destruct (stop_recording env (recorder app) disk)
      as [[[r d] [f|]] calls1] eqn:Hstop; cbn [snd] in Hv.
    + rewrite (released_calls env app disk r d f calls1 Hrec Hstop).
      pose proof (transcribe_invisible env d f) as Ht.
      apply invisible_notifications in Ht.
      rewrite !notifications_app.
      change (notifications (Log INFO "Hotkey released - stopping recording"
                             :: calls1)) with (notifications calls1).
      rewrite Hv, Ht.
      destruct (transcription_accepted _); [left | right; left; reflexivity].
      now rewrite notifications_app, (proj2 (paste_threads env _)).
    + pose proof (stop_recording_no_file _ _ _ _ _ _ Hstop) as ->.
      rewrite (released_without_file env app disk r calls1 Hrec Hstop).
      right. right. cbn [snd]. rewrite notifications_app.
      change (notifications (Log INFO "Hotkey released - stopping recording"
                             :: calls1)) with (notifications calls1).
      now rewrite Hv.
Qed.

(** X12.  A silent or malformed answer counts as a failure.  In every
    cycle begun in the idle state that produces a file, when the service
    returns a response without text, or with the empty text, the
    controller ends idle, the history is unchanged, the only thing the
    user sees is the notification "Transcription failed. Check log for
    details.", and the recording is still on disk. *)
Theorem X12_empty_answer_is_failure env (reads : list ReadAnswer)
        (app : SuperScribeApp) (disk : gmap string FileContent)
        (f : string) (answer : option string) :
  recording app = false ->
  produced (cycle env reads app disk) = Some f ->
  file_read env = None ->
  (forall mime content,
      generate_content env mime content = ServiceResponse answer) ->
  answer = None \/ answer = Some "" ->
  let c := cycle env reads app disk in
  recording (final c) = false
  /\ history (final c) = history app
  /\ visible (calls_made c) = [notify_transcription_failed]
  /\ is_Some (final_disk c !! f).
Proof.
  intros Hidle Hfile Hread Hservice Hanswer.
  destruct (cycle_outcome env reads app disk f Hidle Hfile)
    as (_ & _ & (content & Hdisk & Hsize) & _ & _).
  apply (rejected_cycle env reads app disk f Hidle Hfile).
  rewrite (transcribe_answer env _ f content Hdisk Hsize Hread), Hservice.
  now destruct Hanswer as [-> | ->].
Qed.

Lemma X12_witness :
  let c := cycle (Sample.env_answering (ServiceResponse (Some "")))
                 (map Chunk Sample.two_chunks) Sample.new_app ∅ in
  recording (final c) = false
  /\ history (final c) = history Sample.new_app
  /\ visible (calls_made c) = [notify_transcription_failed]
  /\ is_Some (final_disk c !! Sample.wav_name).
Proof.
  apply (X12_empty_answer_is_failure
           (Sample.env_answering (ServiceResponse (Some "")))
           (map Chunk Sample.two_chunks) Sample.new_app ∅ Sample.wav_name
           (Some ""));
    solve [reflexivity | now right].
Defined.

(** X13.  A clipboard failure does not stop the bookkeeping.  In every
    cycle begun in the idle state that produces a file and whose
    transcription is accepted, when the clipboard copy raises, no key
    stroke is sent, yet the entry is appended to the history and the
    success notification is sent. *)
Theorem X13_clipboard_failure_still_recorded env (reads : list ReadAnswer)
        (app : SuperScribeApp) (disk : gmap string FileContent)
        (f e : string) :
  recording app = false ->
  produced (cycle env reads app disk) = Some f ->
  clipboard_copy env = Some e ->
  let c := cycle env reads app disk in
  let text := fst (transcribe_audio_file env (final_disk c) f) in
  transcription_accepted text = true ->
  history (final c)
  = history app ++ [{| timestamp := now_done env; audio_file := f;
                       transcription := text |}]
  /\ visible (calls_made c) = [ClipboardCopy text; notify_completed].
Proof.
  intros Hidle Hfile Hcopy.
  destruct (cycle_outcome env reads app disk f Hidle Hfile)
    as (_ & _ & _ & Hacc & _).
  simpl. intros Htext. destruct (Hacc Htext) as [Hhist Hvis].
  split; [exact Hhist|]. rewrite Hvis.
  unfold paste_text_at_cursor. now rewrite Hcopy.
Qed.

Lemma X13_witness :
  let env :=
    {| audio_open := None; stream_close := None; wave_write := None;
       now_stop := Sample.clock; now_done := Sample.clock; file_read := None;
       generate_content := fun _ _ => ServiceResponse (Some "hello world");
       clipboard_copy := Some "could not open clipboard";
       send_hotkey := None |} in
  let c := cycle env (map Chunk Sample.two_chunks) Sample.new_app ∅ in
  history (final c)
  = history Sample.new_app
    ++ [{| timestamp := now_done env; audio_file := Sample.wav_name;
           transcription :=
             fst (transcribe_audio_file env (final_disk c) Sample.wav_name) |}]
  /\ visible (calls_made c)
     = [ClipboardCopy
          (fst (transcribe_audio_file env (final_disk c) Sample.wav_name));
        notify_completed].
Proof.
  apply (X13_clipboard_failure_still_recorded
           {| audio_open := None; stream_close := None; wave_write := None;
              now_stop := Sample.clock; now_done := Sample.clock;
              file_read := None;
              generate_content := fun _ _ => ServiceResponse (Some "hello world");
              clipboard_copy := Some "could not open clipboard";
              send_hotkey := None |}
           (map Chunk Sample.two_chunks) Sample.new_app ∅ Sample.wav_name
           "could not open clipboard");
    reflexivity.
Defined.

(** ** Sequences of events *)

Section Runs.

Import Events.

(** What one hotkey-up does to the history and the disk: no file goes
    away, and the history is kept or gets one entry whose file is on
    disk. *)
Lemma released_summary env app (disk : gmap string FileContent) :
  (forall p, is_Some (disk !! p) ->
             is_Some (snd (fst (on_hotkey_released env app disk)) !! p))
  /\ (history (fst (fst (on_hotkey_released env app disk))) = history app
      \/ exists e,
          history (fst (fst (on_hotkey_released env app disk)))
          = history app ++ [e]
          /\ is_Some (snd (fst (on_hotkey_released env app disk))
                      !! audio_file e)).
Proof.
  destruct (recording app) eqn:Hrec.
  2:{ unfold on_hotkey_released. rewrite Hrec. simpl. auto. }
  destruct (stop_recording env (recorder app) disk)
    as [[[r d] [f|]] calls1] eqn:Hstop.
  - pose proof (released_history env app disk r d f calls1 Hrec Hstop) as Hh.
    rewrite (released_with_file env app disk r d f calls1 Hrec Hstop) in *.
    cbn [fst snd] in *.
    pose proof (stop_recording_file _ _ _ _ _ _ _ Hstop) as (_ & _ & _ & _ & ->).
    split.
    + intros p Hp. apply lookup_insert_is_Some.
      destruct (decide (f = p)); auto.
    + rewrite Hh. destruct (transcription_accepted _); [|now left].
      right. eexists. split; [reflexivity|]. simpl.
      rewrite lookup_insert_eq. eauto.
  - pose proof (stop_recording_no_file _ _ _ _ _ _ Hstop) as ->.
    rewrite (released_without_file env app disk r calls1 Hrec Hstop).
    simpl. auto.
Qed.

(** One event: the history is kept or extended at its end by at most one
    entry (none unless the event is a hotkey-up), and no file is
    removed. *)
Lemma step_summary ev app (disk : gmap string FileContent) :
  (forall p, is_Some (disk !! p) ->
             is_Some (snd (fst (step ev app disk)) !! p))
  /\ exists extra,
      history (fst (fst (step ev app disk))) = history app ++ extra
      /\ length extra <= (if is_hotkey_up ev then 1 else 0)
      /\ Forall (fun e => is_Some (snd (fst (step ev app disk)) !! audio_file e))
                extra.
Proof.
  destruct ev as [env|reads|env]; cbn [step fst snd is_hotkey_up].
  - split; [auto|]. exists []. rewrite List.app_nil_r.
    split; [|split; [reflexivity | constructor]].
    destruct (recording app) eqn:Hrec.
    + now rewrite (pressed_while_recording env app Hrec).
    + now rewrite (pressed_when_idle env app Hrec).
  - split; [auto|]. exists []. rewrite List.app_nil_r.
    split; [reflexivity | split; [reflexivity | constructor]].
  - destruct (released_summary env app disk) as [Hdisk [Hsame|(e & Hone & He)]].
    + split; [exact Hdisk|]. exists []. rewrite List.app_nil_r.
      split; [exact Hsame | split; [simpl; lia | constructor]].
    + split; [exact Hdisk|]. exists [e].
      split; [exact Hone | split; [reflexivity | now constructor]].
Qed.

Lemma run_cons ev (evs : list Event) app (disk : gmap string FileContent) :
  fst (run (ev :: evs) app disk)
  = fst (run evs (fst (fst (step ev app disk))) (snd (fst (step ev app disk)))).
Proof.
  simpl. destruct (step ev app disk) as [[app1 disk1] calls1]. simpl.
  now destruct (run evs app1 disk1) as [[app2 disk2] calls2].
Qed.

(** Any sequence of events. *)
Lemma run_summary (evs : list Event) :
  forall app (disk : gmap string FileContent),
    (forall p, is_Some (disk !! p) ->
               is_Some (snd (fst (run evs app disk)) !! p))
    /\ exists extra,
        history (fst (fst (run evs app disk))) = history app ++ extra
        /\ length extra <= length (List.filter is_hotkey_up evs)
        /\ Forall (fun e => is_Some (snd (fst (run evs app disk))
                                     !! audio_file e)) extra.
Proof.
  induction evs as [|ev evs IH]; intros app disk.
  - simpl. split; [auto|]. exists []. rewrite List.app_nil_r.
    split; [reflexivity | split; [reflexivity | constructor]].
  - rewrite run_cons.
    destruct (step_summary ev app disk) as (Hd1 & x1 & Hh1 & Hl1 & Hf1).
    destruct (IH (fst (fst (step ev app disk))) (snd (fst (step ev app disk))))
      as (Hd2 & x2 & Hh2 & Hl2 & Hf2).
    split; [intros p Hp; apply Hd2, Hd1, Hp|].
    exists (x1 ++ x2). split; [now rewrite Hh2, Hh1, <- app_assoc|].
    split.
    + rewrite length_app. simpl.
      destruct (is_hotkey_up ev); simpl; lia.
    + apply Forall_app. split; [|exact Hf2].
      eapply Forall_impl; [exact Hf1|]. intros e He. now apply Hd2.
Qed.

(** The capture loop never sets the flag. *)
Lemma record_flag (reads : list ReadAnswer) :
  forall r, is_recording (fst (_record reads r)) = true ->
            is_recording r = true.
Proof.
  induction reads as [|[data|e] reads IH]; intros r; simpl; [auto | |];
    destruct (is_recording r) eqn:Hrec; intros H; simpl in H;
    solve [reflexivity | congruence].
Qed.

(** One event keeps the audio handle, and keeps the two flags in
    agreement when there is a handle. *)
Lemma step_flags ev app (disk : gmap string FileContent) :
  audio (recorder (fst (fst (step ev app disk)))) = audio (recorder app)
  /\ (is_Some (audio (recorder app)) -> flags_agree app ->
      flags_agree (fst (fst (step ev app disk)))).
Proof.
  unfold flags_agree.
  destruct ev as [env|reads|env]; cbn [step fst snd].
  - split.
    + destruct (recording app) eqn:Hrec.
      * now rewrite (pressed_while_recording env app Hrec).
      * rewrite (pressed_when_idle env app Hrec). simpl.
        apply start_keeps_audio.
    + intros _ _ _. apply pressed_sets_flag.
  - split; [apply record_keeps_audio|].
    intros _ Hagree Hrec. simpl in *. apply Hagree.
    now apply (record_flag reads).
  - pose proof (released_state env app disk) as [Hdown Hrecorder].
    rewrite Hrecorder.
    destruct (recording app) eqn:Hrec.
    + split; [apply stop_keeps_audio|].
      intros Ha _ Hon. exfalso.
      destruct (stop_recording env (recorder app) disk)
        as [[[r d] file] calls] eqn:Hstop.
      simpl in Hon.
      rewrite (stop_recording_flag _ _ _ _ _ _ _ Hstop Ha) in Hon.
      discriminate.
    + split; [reflexivity|]. intros _ Hagree Hon.
      specialize (Hagree Hon). congruence.
Qed.

Lemma run_flags (evs : list Event) :
  forall app (disk : gmap string FileContent),
    is_Some (audio (recorder app)) -> flags_agree app ->
    flags_agree (fst (fst (run evs app disk))).
Proof.
  induction evs as [|ev evs IH]; intros app disk Ha Hagree; [exact Hagree|].
  rewrite run_cons.
  destruct (step_flags ev app disk) as [Haudio Hstep].
  apply IH; [now rewrite Haudio | now apply Hstep].
Qed.

End Runs.

(** X14.  The history only grows, and by at most one entry per
    hotkey-up.  After any sequence of hotkey-downs, captures and
    hotkey-ups, in any environment, the history is the old one followed
    by new entries, and there are no more new entries than hotkey-ups in
    the sequence. *)
Theorem X14_history_only_grows (evs : list Events.Event)
        (app : SuperScribeApp) (disk : gmap string FileContent) :
  exists extra,
    history (fst (fst (Events.run evs app disk))) = history app ++ extra
    /\ length extra <= length (List.filter Events.is_hotkey_up evs).
Proof.
  destruct (run_summary evs app disk) as (_ & extra & Hh & Hl & _). eauto.
Qed.

(** X15.  No recording is ever deleted.  After any sequence of events,
    in any environment, every path that was on disk is still on disk. *)
Theorem X15_files_never_deleted (evs : list Events.Event)
        (app : SuperScribeApp) (disk : gmap string FileContent) (p : string) :
  is_Some (disk !! p) ->
  is_Some (snd (fst (Events.run evs app disk)) !! p).
Proof. apply run_summary. Qed.

Lemma X15_witness :
  is_Some (snd (fst (Events.run
                       [Events.HotkeyDown Sample.env_hello;
                        Events.Captured (map Chunk Sample.two_chunks);
                        Events.HotkeyUp Sample.env_timeout]
                       Sample.new_app
                       {["notes.txt" := RawFile [Byte.x41]]}))
           !! "notes.txt").
Proof.
  apply (X15_files_never_deleted
           [Events.HotkeyDown Sample.env_hello;
            Events.Captured (map Chunk Sample.two_chunks);
            Events.HotkeyUp Sample.env_timeout]
           Sample.new_app {["notes.txt" := RawFile [Byte.x41]]} "notes.txt").
  rewrite lookup_singleton_eq. eauto.
Defined.

(** X16.  Every history entry names a file that exists.  If every entry
    of the history names a file on disk, this is still so after any
    sequence of events, in any environment. *)
Theorem X16_history_files_on_disk (evs : list Events.Event)
        (app : SuperScribeApp) (disk : gmap string FileContent) :
  Events.history_on_disk app disk ->
  Events.history_on_disk (fst (fst (Events.run evs app disk)))
                         (snd (fst (Events.run evs app disk))).
Proof.
  unfold Events.history_on_disk. intros Hold.
  destruct (run_summary evs app disk) as (Hdisk & extra & -> & _ & Hnew).
  apply Forall_app. split; [|exact Hnew].
  eapply Forall_impl; [exact Hold|]. intros e He. now apply Hdisk.
Qed.

Lemma X16_witness :
  Events.history_on_disk
    (fst (fst (Events.run
                 [Events.HotkeyDown Sample.env_hello;
                  Events.Captured (map Chunk Sample.two_chunks);
                  Events.HotkeyUp Sample.env_hello]
                 Sample.new_app ∅)))
    (snd (fst (Events.run
                 [Events.HotkeyDown Sample.env_hello;
                  Events.Captured (map Chunk Sample.two_chunks);
                  Events.HotkeyUp Sample.env_hello]
                 Sample.new_app ∅))).
Proof.
  apply (X16_history_files_on_disk
           [Events.HotkeyDown Sample.env_hello;
            Events.Captured (map Chunk Sample.two_chunks);
            Events.HotkeyUp Sample.env_hello]
           Sample.new_app ∅).
  constructor.
Defined.

(** X17.  The recorder never records behind the controller's back.  For
    an application whose recorder has its audio handle and whose
    recorder's flag is set only when the controller's is, this is still
    so after any sequence of events, in any environment: whenever the
    controller is idle, the capture loop is not running. *)
Theorem X17_no_capture_while_idle (evs : list Events.Event)
        (app : SuperScribeApp) (disk : gmap string FileContent) :
  is_Some (audio (recorder app)) ->
  Events.flags_agree app ->
  Events.flags_agree (fst (fst (Events.run evs app disk))).
Proof. apply run_flags. Qed.

Lemma X17_witness :
  Events.flags_agree
    (fst (fst (Events.run
                 [Events.HotkeyDown Sample.env_hello;
                  Events.Captured [Chunk [Byte.x01]; ReadRaises "overrun"];
                  Events.HotkeyUp Sample.env_hello;
                  Events.HotkeyUp Sample.env_hello]
                 Sample.new_app ∅))).
Proof.
  apply (X17_no_capture_while_idle
           [Events.HotkeyDown Sample.env_hello;
            Events.Captured [Chunk [Byte.x01]; ReadRaises "overrun"];
            Events.HotkeyUp Sample.env_hello;
            Events.HotkeyUp Sample.env_hello]
           Sample.new_app ∅).
  - simpl. eauto.
  - discriminate.
Defined.

(** ** The history window *)

Section HistoryView.

Import HistoryWindow.

Lemma show_history_nonempty (app : SuperScribeApp) :
  history app <> [] ->
  show_history app = concat (map entry_text (rev (history app))).
Proof. unfold show_history. now destruct (history app). Qed.

Lemma length_entries (h : list HistoryEntry) :
  length (concat (map entry_text h)) = 2 * length h.
Proof.
  induction h as [|e h IH]; [reflexivity|].
  cbn [map concat]. rewrite length_app, IH. simpl. lia.
Qed.

End HistoryView.

(** X18.  The history window lists the newest transcription first.  With
    an empty history it shows the one line "No transcription history
    yet."; otherwise it shows two texts per entry (the time stamp line,
    the transcription).  Appending an entry to the history puts its two
    texts at the top of the window and leaves the texts of the older
    entries below them, unchanged and in the same order. *)
Theorem X18_history_window_newest_first (app : SuperScribeApp)
        (e : HistoryEntry) :
  (history app = [] ->
   HistoryWindow.show_history app = ["No transcription history yet."])
  /\ (history app <> [] ->
      length (HistoryWindow.show_history app) = 2 * length (history app))
  /\ HistoryWindow.show_history (append_history e app)
     = HistoryWindow.entry_text e
       ++ match history app with
          | [] => []
          | _ :: _ => HistoryWindow.show_history app
          end.
Proof.
  split; [|split].
  - unfold HistoryWindow.show_history. now intros ->.
  - intros Hne. rewrite (show_history_nonempty app Hne), length_entries.
    now rewrite length_rev.
  - rewrite show_history_nonempty
      by (simpl; intros H; now apply app_eq_nil in H as [_ H]).
    cbn [history append_history]. rewrite rev_app_distr. cbn [rev List.app map concat].
    f_equal. unfold HistoryWindow.show_history. now destruct (history app).
Qed.

(** ** main_test.py *)

Lemma transcribers_same_value env (disk : gmap string FileContent)
      (path : string) :
  fst (MainTestApp.transcribe_audio_file env disk path)
  = fst (transcribe_audio_file env disk path).
Proof.
  unfold MainTestApp.transcribe_audio_file, transcribe_audio_file.
  destruct (disk !! path) as [content|]; [|reflexivity].
  destruct (Nat.eqb (file_size content) 0); [reflexivity|].
  destruct (file_read env); [reflexivity|].
  change (MainTest.mime_type_of path) with (mime_type_of path).
  now destruct (generate_content env (mime_type_of path) content) as [e|[t|]].
Qed.

(** X19.  The two transcribers agree.  For every environment, disk and
    path, [AudioFileTranscriber.transcribe_audio_file] of main_test.py
    returns the same string as [TranscriptionService.transcribe_audio_file]
    of superscribe_win.py and makes the same library calls in the same
    order (log lines, the read of the file, the request to the service);
    it only prints besides.  For a file that is missing or empty it
    prints nothing: the failure goes to the log alone. *)
Theorem X19_transcribers_agree env (disk : gmap string FileContent)
        (path : string) :
  fst (MainTestApp.transcribe_audio_file env disk path)
  = fst (transcribe_audio_file env disk path)
  /\ MainTestApp.lib_calls (snd (MainTestApp.transcribe_audio_file env disk path))
     = snd (transcribe_audio_file env disk path)
  /\ (disk !! path = None
      \/ (exists content, disk !! path = Some content /\ file_size content = 0) ->
      MainTestApp.printed (snd (MainTestApp.transcribe_audio_file env disk path))
      = []).
Proof.
  unfold MainTestApp.transcribe_audio_file, transcribe_audio_file.
  destruct (disk !! path) as [content|] eqn:Hdisk.
  2:{ repeat split. }
  destruct (Nat.eqb (file_size content) 0) eqn:Hsize.
  { repeat split. }
  assert (Hnot : ~ (Some content = None \/
                    exists c, Some content = Some c /\ file_size c = 0)).
  { intros [H|(c & H & Hc)]; [discriminate|].
    injection H as <-. apply Nat.eqb_neq in Hsize. contradiction. }
  destruct (file_read env).
  { split; [reflexivity|]. split; [reflexivity|]. intros H. now elim Hnot. }
  change (MainTest.mime_type_of path) with (mime_type_of path).
  destruct (generate_content env (mime_type_of path) content) as [e|[t|]];
    (split; [reflexivity|]); (split; [reflexivity|]);
    intros H; now elim Hnot.
Qed.

(** X20.  The window of main_test.py.  Without a file selected (the
    entry is empty or still reads "No file selected"), [transcribe_file]
    only shows the error dialog: the widgets are unchanged and the
    transcriber is not run.  With a file selected, the result area shows
    whatever the transcriber returned and the status bar reads
    "Transcription completed in ... seconds", also when what was returned
    is an error message: for a path that is not on disk the result area
    shows "Error: Audio file not found: <path>" under that status. *)
Theorem X20_window_reports_completion env (disk : gmap string FileContent)
        (elapsed : string) (ui : MainTestApp.SimpleUI) :
  (MainTestApp.file_var ui = ""
   \/ MainTestApp.file_var ui = "No file selected" ->
   MainTestApp.transcribe_file env disk elapsed ui
   = (ui, [MainTestApp.ShowError "Error" "Please select an audio file first"]))
  /\ (MainTestApp.file_var ui <> "" ->
      MainTestApp.file_var ui <> "No file selected" ->
      fst (MainTestApp.transcribe_file env disk elapsed ui)
      = {| MainTestApp.file_var := MainTestApp.file_var ui;
           MainTestApp.result_text :=
             fst (transcribe_audio_file env disk (MainTestApp.file_var ui));
           MainTestApp.status_var :=
             "Transcription completed in " +:+ elapsed +:+ " seconds" |}
      /\ (disk !! MainTestApp.file_var ui = None ->
          MainTestApp.result_text
            (fst (MainTestApp.transcribe_file env disk elapsed ui))
          = "Error: Audio file not found: " +:+ MainTestApp.file_var ui)).
Proof.
  unfold MainTestApp.transcribe_file. split.
  - intros [H|H]; rewrite H; reflexivity.
  - intros Hne Hsel.
    assert (Ht : PyStr.truthy (MainTestApp.file_var ui) = true)
      by (destruct (MainTestApp.file_var ui); [now elim Hne | reflexivity]).
    apply String.eqb_neq in Hsel. rewrite Ht, Hsel. simpl.
    pose proof (transcribers_same_value env disk (MainTestApp.file_var ui)) as Hsame.
    destruct (MainTestApp.transcribe_audio_file env disk (MainTestApp.file_var ui))
      as [text out].
    simpl in *. rewrite Hsame. split; [reflexivity|].
    intros Hnone. now rewrite (transcribe_missing env disk _ Hnone).
Qed.
